(** * python-bpspatcher: a shallow embedding of [patcher.py]

    The BPS decoder of [python_bpspatcher/patcher.py] is embedded as Rocq
    functions: Python [bytes] and [bytearray] values are lists of [byte],
    Python integers are [Z] (they are unbounded in Python), [None] is the
    [None] of [option], a [io.BytesIO] cursor is the list of bytes that are
    still unread, and a raised exception is the [Raise] outcome of the
    [result] type.  The [print] of the interpreter loop writes to standard
    output only and is left out, and memory is taken to be unbounded: a
    [bytearray] of any declared size can be allocated.  The integers of a
    64-bit CPython are assumed where the size of a [Py_ssize_t] matters,
    which is in [io.BytesIO.read]; the formatting of an integer for
    [print] or for the message of an exception is taken not to fail. *)

From Stdlib Require Import ZArith List Lia Bool.
From Stdlib Require Import Strings.Byte.
From Equations Require Import Equations.
Import ListNotations.

Open Scope Z_scope.

(* ------------------------------------------------------------------ *)
(** ** Bytes and Python sequence operations *)

Definition bytes := list byte.

(** The integer value of one byte, [0..255]. *)
Definition byte_val (b : byte) : Z := Z.of_N (Byte.to_N b).

(** The byte of an integer in [0..255]. *)
Definition byte_of (z : Z) : byte :=
  match Byte.of_N (Z.to_N z) with
  | Some b => b
  | None => x00
  end.

(** [len(b)] *)
Definition len {A} (l : list A) : Z := Z.of_nat (length l).

Module Py.

(** One bound of a slice with step 1, as CPython's [PySlice_AdjustIndices]
    computes it: a negative bound counts from the end, and the result is
    clipped to [0..n]. *)
Definition adjust_index (n i : Z) : Z :=
  if i <? 0 then Z.max 0 (i + n) else Z.min i n.

Definition bound (n dflt : Z) (i : option Z) : Z :=
  match i with
  | None => dflt
  | Some i => adjust_index n i
  end.

(** [l[start:stop]]; a bound that is absent or [None] is [None] here. *)
Definition getslice {A} (l : list A) (start stop : option Z) : list A :=
  let lo := bound (len l) 0 start in
  let hi := bound (len l) (len l) stop in
  firstn (Z.to_nat (hi - lo)) (skipn (Z.to_nat lo) l).

(** [l[start:stop] = v] on a [bytearray]: the clipped range is replaced by
    [v], whatever the length of [v] (the array shrinks or grows). *)
Definition setslice {A} (l : list A) (start stop : Z) (v : list A) : list A :=
  let lo := adjust_index (len l) start in
  let hi := Z.max lo (adjust_index (len l) stop) in
  firstn (Z.to_nat lo) l ++ v ++ skipn (Z.to_nat hi) l.

(** The position an integer subscript denotes, [None] where Python raises
    [IndexError]. *)
Definition index (n i : Z) : option nat :=
  let j := if i <? 0 then i + n else i in
  if (j <? 0) || (n <=? j) then None else Some (Z.to_nat j).

(** [l[i]] *)
Definition getitem {A} (l : list A) (i : Z) : option A :=
  match index (len l) i with
  | None => None
  | Some j => nth_error l j
  end.

(** [l[i] = v] *)
Definition setitem {A} (l : list A) (i : Z) (v : A) : option (list A) :=
  match index (len l) i with
  | None => None
  | Some j => Some (firstn j l ++ v :: skipn (S j) l)
  end.

(** [bytearray(n)]: [n] zero bytes. *)
Definition bytearray (n : Z) : bytes := repeat x00 (Z.to_nat n).

(** [sys.maxsize], the largest [Py_ssize_t] of a 64-bit CPython. *)
Definition maxsize : Z := 2 ^ 63 - 1.

(** [b.read(n)] on a [io.BytesIO]: at most [n] bytes, or all of them for a
    negative [n], and the cursor after them; [None] where the method
    raises [OverflowError], which it does for an [n] that is no
    [Py_ssize_t], whatever the stream holds. *)
Definition read (b : bytes) (n : Z) : option (bytes * bytes) :=
  if (n <? - maxsize - 1) || (maxsize <? n) then None
  else if n <? 0 then Some (b, [])
  else Some (firstn (Z.to_nat n) b, skipn (Z.to_nat n) b).

End Py.

(** [convert_uint]: [int.from_bytes(b, "little", signed=False)]. *)
Fixpoint convert_uint (b : bytes) : Z :=
  match b with
  | [] => 0
  | x :: r => byte_val x + 256 * convert_uint r
  end.

(* ------------------------------------------------------------------ *)
(** ** [binascii.crc32] *)

Module Crc.

Definition poly : Z := 0xEDB88320.

Definition shift1 (c : Z) : Z :=
  if Z.testbit c 0 then Z.lxor (Z.shiftr c 1) poly else Z.shiftr c 1.

Definition update (c : Z) (b : byte) : Z :=
  Nat.iter 8 shift1 (Z.lxor c (byte_val b)).

Definition crc32 (data : bytes) : Z :=
  Z.lxor (fold_left update data 0xFFFFFFFF) 0xFFFFFFFF.

End Crc.

(* ------------------------------------------------------------------ *)
(** ** The variable-length integers *)

(** The [while] loop of [read_number_io] with its two locals.  The result is
    the value returned and the unread bytes; the stream is at its end when
    [None] is returned. *)
Fixpoint read_number_loop (data shift : Z) (b : bytes) : option Z * bytes :=
  match b with
  | [] => (None, [])
  | x :: rest =>
      let x := convert_uint [x] in
      let data := data + Z.land x 0x7f * shift in
      if Z.land x 0x80 =? 0 then
        let shift := Z.shiftl shift 7 in
        read_number_loop (data + shift) shift rest
      else (Some data, rest)
  end.

Definition read_number_io (b : bytes) : option Z * bytes :=
  read_number_loop 0 1 b.

(** [read_number]: the number and [bio.read()], the remaining bytes. *)
Definition read_number (b : bytes) : option Z * bytes :=
  read_number_io b.

(** Modelled from the spec: the encoder, which the decode-only source does
    not have.  It is the inverse the spec asks for: seven data bits per
    byte, least significant group first, one subtracted from what remains
    after each non-terminal byte, the terminal byte marked by its high
    bit. *)
Equations? encode_number (data : Z) : bytes by wf (Z.to_nat data) lt :=
  encode_number data with Z_lt_le_dec data 128 := {
    | left _ => [byte_of (Z.lor 0x80 (Z.land data 0x7f))]
    | right _ =>
        byte_of (Z.land data 0x7f) :: encode_number (Z.shiftr data 7 - 1)
  }.
Proof.
  rewrite Z.shiftr_div_pow2 by lia.
  change (2 ^ 7) with 128.
  assert (data / 128 <= data) by (apply Z.div_le_upper_bound; lia).
  assert (0 < data / 128) by (apply Z.div_str_pos; lia).
  lia.
Qed.

(* ------------------------------------------------------------------ *)
(** ** Exceptions *)

(** The message of an [InvalidPatch], by the [raise] that builds it, with
    the values its f-string prints. *)
Inductive InvalidPatchMsg : Type :=
| MagicHeaderIncorrect (header : bytes)
| PatchChecksumMismatch (patch_checksum calculated_checksum : Z)
| SourceSizeMismatch (actual : Z) (expected : option Z)
| SourceChecksumMismatch (source_checksum expected : Z)
| TargetChecksumMismatch (target_checksum expected : Z).

(** The exceptions the module can raise: its own [InvalidPatch] and the
    built-in ones of the interpreter. *)
Inductive exn : Type :=
| InvalidPatch (msg : InvalidPatchMsg)
| TypeError
| IndexError
| UnicodeDecodeError
| OverflowError.

Inductive result (A : Type) : Type :=
| Ok (a : A)
| Raise (e : exn).

Arguments Ok {A} a.
Arguments Raise {A} e.

Definition bind {A B} (r : result A) (k : A -> result B) : result B :=
  match r with
  | Ok a => k a
  | Raise e => Raise e
  end.

Notation "x <- r ;; k" := (bind r (fun x => k))
  (at level 61, r at next level, right associativity).

Notation "'when' c 'raise' e ;; k" := (if c then Raise e else k)
  (at level 61, c at next level, e at next level, right associativity).

(** [a != b] where [b] may be [None] and [a] is an integer. *)
Definition int_ne (a : Z) (b : option Z) : bool :=
  match b with
  | None => true
  | Some b => negb (a =? b)
  end.

(* ------------------------------------------------------------------ *)
(** ** [bytes.decode("UTF-8")] *)

Module Utf8.

Definition cont (b : byte) : bool :=
  (0x80 <=? byte_val b) && (byte_val b <=? 0xBF).

Definition between (lo hi : Z) (b : byte) : bool :=
  (lo <=? byte_val b) && (byte_val b <=? hi).

Definition low6 (b : byte) : Z := Z.land (byte_val b) 0x3F.

(** Strict decoding to code points; [None] where Python raises
    [UnicodeDecodeError] (a stray or missing continuation byte, an
    overlong form, a surrogate, a code point above U+10FFFF). *)
Fixpoint decode (b : bytes) : option (list Z) :=
  match b with
  | [] => Some []
  | b0 :: r0 =>
      let c0 := byte_val b0 in
      if c0 <? 0x80 then option_map (cons c0) (decode r0)
      else if between 0xC2 0xDF b0 then
        match r0 with
        | b1 :: r1 =>
            if cont b1
            then option_map (cons (Z.land c0 0x1F * 64 + low6 b1)) (decode r1)
            else None
        | _ => None
        end
      else if between 0xE0 0xEF b0 then
        match r0 with
        | b1 :: b2 :: r2 =>
            if (if c0 =? 0xE0 then between 0xA0 0xBF b1
                else if c0 =? 0xED then between 0x80 0x9F b1
                else cont b1) && cont b2
            then option_map
                   (cons (Z.land c0 0x0F * 4096 + low6 b1 * 64 + low6 b2))
                   (decode r2)
            else None
        | _ => None
        end
      else if between 0xF0 0xF4 b0 then
        match r0 with
        | b1 :: b2 :: b3 :: r3 =>
            if (if c0 =? 0xF0 then between 0x90 0xBF b1
                else if c0 =? 0xF4 then between 0x80 0x8F b1
                else cont b1) && cont b2 && cont b3
            then option_map
                   (cons (Z.land c0 0x07 * 262144 + low6 b1 * 4096
                          + low6 b2 * 64 + low6 b3))
                   (decode r3)
            else None
        | _ => None
        end
      else None
  end.

End Utf8.

(* ------------------------------------------------------------------ *)
(** ** [BPSPatch.__init__] *)

Inductive Action : Type := SourceRead | TargetRead | SourceCopy | TargetCopy.

Definition Action_value (a : Action) : Z :=
  match a with
  | SourceRead => 0
  | TargetRead => 1
  | SourceCopy => 2
  | TargetCopy => 3
  end.

(** The attributes of a [BPSPatch] object.  The three sizes are what
    [read_number] returned, so each may be [None]; [metadata] is the decoded
    text as code points. *)
Record BPSPatch : Type := mkBPSPatch {
  source_checksum : Z;
  target_checksum : Z;
  patch_checksum : Z;
  source_size : option Z;
  target_size : option Z;
  metadata_size : option Z;
  metadata : list Z;
  actions : bytes
}.

Definition MAGIC_HEADER : bytes := [x42; x50; x53; x31].

Definition bytes_eqb (a b : bytes) : bool :=
  if list_eq_dec Byte.byte_eq_dec a b then true else false.

(** [BPSPatch(patch)] *)
Definition BPSPatch_init (patch : bytes) : result BPSPatch :=
  let header := Py.getslice patch None (Some 4) in
  when negb (bytes_eqb header MAGIC_HEADER)
    raise InvalidPatch (MagicHeaderIncorrect header) ;;
  let source_checksum :=
    convert_uint (Py.getslice patch (Some (-12)) (Some (-8))) in
  let target_checksum :=
    convert_uint (Py.getslice patch (Some (-8)) (Some (-4))) in
  let patch_checksum := convert_uint (Py.getslice patch (Some (-4)) None) in
  let calculated_checksum := Crc.crc32 (Py.getslice patch None (Some (-4))) in
  when negb (patch_checksum =? calculated_checksum)
    raise InvalidPatch (PatchChecksumMismatch patch_checksum
                                              calculated_checksum) ;;
  let remainder := Py.getslice patch (Some 4) None in
  let '(source_size, remainder) := read_number remainder in
  let '(target_size, remainder) := read_number remainder in
  let '(metadata_size, remainder) := read_number remainder in
  match Utf8.decode (Py.getslice remainder None metadata_size) with
  | None => Raise UnicodeDecodeError
  | Some metadata =>
      Ok {| source_checksum := source_checksum;
            target_checksum := target_checksum;
            patch_checksum := patch_checksum;
            source_size := source_size;
            target_size := target_size;
            metadata_size := metadata_size;
            metadata := metadata;
            actions := Py.getslice remainder metadata_size (Some (-12)) |}
  end.

(* ------------------------------------------------------------------ *)
(** ** [BPSPatch.patch_rom] *)

(** The locals of [patch_rom] that the loop changes.  [stream] is the
    [actions] cursor: the bytes of the action stream not yet read. *)
Record RunState : Type := mkRunState {
  target : bytes;
  stream : bytes;
  output_offset : Z;
  source_relative_offset : Z;
  target_relative_offset : Z
}.

(** One turn of the [while] loop: [break], a completed turn, or an
    exception. *)
Inductive Turn : Type :=
| Break
| Next (st : RunState)
| Fault (e : exn).

(** [(-1 if data & 1 else 1) * (data >> 1)] *)
Definition signed_delta (data : Z) : Z :=
  (if Z.land data 1 =? 0 then 1 else -1) * Z.shiftr data 1.

(** The [for] loop of the TargetCopy branch, [n] turns of it; [None] where
    a subscript raises [IndexError]. *)
Fixpoint target_copy (n : nat) (target : bytes) (output_offset tro : Z)
  : option (bytes * Z * Z) :=
  match n with
  | O => Some (target, output_offset, tro)
  | S n' =>
      match Py.getitem target tro with
      | None => None
      | Some v =>
          match Py.setitem target output_offset v with
          | None => None
          | Some target' => target_copy n' target' (output_offset + 1) (tro + 1)
          end
      end
  end.

Definition step (source : bytes) (st : RunState) : Turn :=
  match read_number_io (stream st) with
  | (None, _) => Break
  | (Some action, rest) =>
      let command := Z.land action 3 in
      let length := Z.shiftr action 2 + 1 in
      let o := output_offset st in
      if command =? Action_value SourceRead then
        Next {| target := Py.setslice (target st) o (o + length)
                            (Py.getslice source (Some o) (Some (o + length)));
                stream := rest;
                output_offset := o + length;
                source_relative_offset := source_relative_offset st;
                target_relative_offset := target_relative_offset st |}
      else if command =? Action_value TargetRead then
        match Py.read rest length with
        | None => Fault OverflowError
        | Some (payload, rest) =>
            Next {| target := Py.setslice (target st) o (o + length) payload;
                    stream := rest;
                    output_offset := o + length;
                    source_relative_offset := source_relative_offset st;
                    target_relative_offset := target_relative_offset st |}
        end
      else if command =? Action_value SourceCopy then
        match read_number_io rest with
        | (None, _) => Fault TypeError
        | (Some data, rest) =>
            let sro := source_relative_offset st + signed_delta data in
            Next {| target := Py.setslice (target st) o (o + length)
                                (Py.getslice source (Some sro)
                                             (Some (sro + length)));
                    stream := rest;
                    output_offset := o + length;
                    source_relative_offset := sro + length;
                    target_relative_offset := target_relative_offset st |}
        end
      else if command =? Action_value TargetCopy then
        match read_number_io rest with
        | (None, _) => Fault TypeError
        | (Some data, rest) =>
            let tro := target_relative_offset st + signed_delta data in
            match target_copy (Z.to_nat length) (target st) o tro with
            | None => Fault IndexError
            | Some (target', o', tro') =>
                Next {| target := target';
                        stream := rest;
                        output_offset := o';
                        source_relative_offset := source_relative_offset st;
                        target_relative_offset := tro' |}
            end
        end
      else
        Next {| target := target st;
                stream := rest;
                output_offset := o;
                source_relative_offset := source_relative_offset st;
                target_relative_offset := target_relative_offset st |}
  end.

(** Every decoded number takes at least one byte off the stream. *)
Lemma read_number_loop_consumes data shift b v rest :
  read_number_loop data shift b = (Some v, rest) ->
  (length rest < length b)%nat.
Proof.
  revert data shift.
  induction b as [|x b IH]; intros data shift; cbn [read_number_loop].
  - discriminate.
  - destruct (Z.land (convert_uint [x]) 128 =? 0).
    + intros H. apply IH in H. cbn [length]. lia.
    + intros H. injection H as _ <-. cbn [length]. lia.
Qed.

Lemma step_consumes source st st' :
  step source st = Next st' -> (length (stream st') < length (stream st))%nat.
Proof.
  unfold step, read_number_io.
  destruct (read_number_loop 0 1 (stream st)) as [[action|] rest] eqn:E;
    [|discriminate].
  apply read_number_loop_consumes in E.
  assert (forall n, (length (skipn n rest) <= length rest)%nat) as Hskip
    by (intros; rewrite length_skipn; lia).
  unfold Py.read.
  repeat match goal with
         | |- context [if ?c then _ else _] => destruct c
         end;
    try discriminate;
    try (intros H; injection H as <-; cbn [stream length];
         try apply Nat.le_lt_trans with (2 := E); auto; lia).
  - destruct (read_number_loop 0 1 rest) as [[d|] r] eqn:E2; [|discriminate].
    apply read_number_loop_consumes in E2.
    intros H; injection H as <-; cbn [stream]. lia.
  - destruct (read_number_loop 0 1 rest) as [[d|] r] eqn:E2; [|discriminate].
    apply read_number_loop_consumes in E2.
    destruct target_copy as [[[t o'] tro']|]; [|discriminate].
    intros H; injection H as <-; cbn [stream]. lia.
Qed.

Definition inspect {A} (a : A) : {b : A | a = b} := exist _ a eq_refl.

(** The [while True] loop from a given state: the state at [break], or the
    exception raised.  Each turn shortens [stream], which bounds the loop. *)
Equations run_loop (source : bytes) (st : RunState) : result RunState
  by wf (length (stream st)) lt :=
  run_loop source st with inspect (step source st) := {
    | exist _ Break _ => Ok st
    | exist _ (Fault e) _ => Raise e
    | exist _ (Next st') H => run_loop source st'
  }.
Next Obligation. eapply step_consumes; eassumption. Qed.

(** [patch.patch_rom(source)] *)
Definition patch_rom (self : BPSPatch) (source : bytes) : result bytes :=
  when int_ne (len source) (source_size self)
    raise InvalidPatch (SourceSizeMismatch (len source) (source_size self)) ;;
  let source_checksum_ := Crc.crc32 source in
  when negb (source_checksum_ =? source_checksum self)
    raise InvalidPatch (SourceChecksumMismatch source_checksum_
                                               (source_checksum self)) ;;
  match target_size self with
  | None => Raise TypeError
  | Some n =>
      st <- run_loop source
              {| target := Py.bytearray n;
                 stream := actions self;
                 output_offset := 0;
                 source_relative_offset := 0;
                 target_relative_offset := 0 |} ;;
      let target_checksum_ := Crc.crc32 (target st) in
      when negb (target_checksum_ =? target_checksum self)
        raise InvalidPatch (TargetChecksumMismatch target_checksum_
                                                   (target_checksum self)) ;;
      Ok (target st)
  end.

(* ------------------------------------------------------------------ *)
(** ** Vocabulary of the statements, and sample patches *)

(** The checksum that the last four bytes of a patch hold, and the one
    computed over the bytes before them. *)
Definition stored_patch_checksum (patch : bytes) : Z :=
  convert_uint (skipn (length patch - 4) patch).

Definition computed_patch_checksum (patch : bytes) : Z :=
  Crc.crc32 (firstn (length patch - 4) patch).

(** The attributes [__init__] sets when the three numbers of the header
    were read as [source_size], [target_size] and [metadata_size], with
    nothing left after a number that is missing. *)
Definition parsed_with (p : BPSPatch) (ss ts ms : option Z) : Prop :=
  source_size p = ss /\ target_size p = ts /\ metadata_size p = ms.

(** The header of this nine-byte patch and its checksum are right, and the
    five bytes after the header hold no complete number. *)
Definition patch_without_sizes : bytes :=
  [x42; x50; x53; x31; x0f; x5c; x79; x04; x17].

(** The state of the loop on entry, for a target of [n] bytes. *)
Definition initial_state (self : BPSPatch) (n : Z) : RunState :=
  {| target := Py.bytearray n;
     stream := actions self;
     output_offset := 0;
     source_relative_offset := 0;
     target_relative_offset := 0 |}.

(** [reaches source st st']: the loop entered in [st] is in [st'] after
    some number of completed turns. *)
Inductive reaches (source : bytes) : RunState -> RunState -> Prop :=
| reaches_refl st : reaches source st st
| reaches_next st st' st'' :
    step source st = Next st' ->
    reaches source st' st'' ->
    reaches source st st''.

(** The buffer a caller of [patch_rom] gets, if any. *)
Definition returned_target (r : result bytes) : option bytes :=
  match r with
  | Ok t => Some t
  | Raise _ => None
  end.

(** A container as [__init__] builds it from a patch with empty metadata:
    the two sizes, the action stream, and the three checksums. *)
Definition container (ss ts : Z) (acts : bytes) (sc tc pc : Z) : BPSPatch :=
  {| source_checksum := sc;
     target_checksum := tc;
     patch_checksum := pc;
     source_size := Some ss;
     target_size := Some ts;
     metadata_size := Some 0;
     metadata := [];
     actions := acts |}.

(** The sample patches below are complete patch files, each followed by
    the container that [__init__] builds from it.  Their actions, as bytes:
    [x8c] is SourceRead of length 4, [x84] SourceRead of length 2, [x81]
    TargetRead of length 1, [x8d] TargetRead of length 4, [x86] SourceCopy
    of length 2, [x93] TargetCopy of length 5; a delta is [x80] for 0,
    [x82] for +1, [x88] for +4, [x83] for -1, [x87] for -3. *)
Definition source_1234 : bytes := [x01; x02; x03; x04].

Definition source_8 : bytes := [x0a; x0b; x0c; x0d; x0e; x0f; x10; x11].

(** Sizes 4 and 4, one SourceRead of length 4. *)
Definition identity_patch : bytes :=
  [x42; x50; x53; x31; x84; x84; x80; x8c;
   xcd; xfb; x3c; xb6; xcd; xfb; x3c; xb6; xc1; x8d; x46; x8f].

Definition identity : BPSPatch :=
  container 4 4 [x8c] 3057449933 3057449933 2403765697.

(** The same with a target checksum that is not the one of the source. *)
Definition identity_bad_target_patch : bytes :=
  [x42; x50; x53; x31; x84; x84; x80; x8c;
   xcd; xfb; x3c; xb6; x01; x00; x00; x00; x08; x2f; xbd; x5b].

Definition identity_bad_target : BPSPatch :=
  container 4 4 [x8c] 3057449933 1 1539125000.

(** Write one byte [x41], then TargetCopy of length 5 with delta -1. *)
Definition fill_minus_one_patch : bytes :=
  [x42; x50; x53; x31; x80; x86; x80; x81; x41; x93; x83;
   x00; x00; x00; x00; x76; x39; x0c; xbf; xc7; x27; x5e; xaf].

Definition fill_minus_one : BPSPatch :=
  container 0 6 [x81; x41; x93; x83] 0 3205249398 2942183367.

(** Write one byte [x41], then TargetCopy of length 5 with delta 0. *)
Definition fill_zero_patch : bytes :=
  [x42; x50; x53; x31; x80; x86; x80; x81; x41; x93; x80;
   x00; x00; x00; x00; x7e; xde; x1c; xaa; x72; x03; xd5; xd8].

Definition fill_zero : BPSPatch :=
  container 0 6 [x81; x41; x93; x80] 0 2854018686 3637838706.

(** SourceRead of length 4 on a source of 2 bytes. *)
Definition read_past_source_patch : bytes :=
  [x42; x50; x53; x31; x82; x84; x80; x8c;
   x92; x42; xcc; xb6; x92; x42; xcc; xb6; xf7; xe1; x5f; x01].

Definition read_past_source : BPSPatch :=
  container 2 4 [x8c] 3066839698 3066839698 23060983.

(** SourceCopy of length 2 with delta -3 from the start of a run. *)
Definition copy_before_source_patch : bytes :=
  [x42; x50; x53; x31; x84; x82; x80; x86; x87;
   xcd; xfb; x3c; xb6; xc7; x21; xe6; xea; x01; xdb; x1b; xa2].

Definition copy_before_source : BPSPatch :=
  container 4 2 [x86; x87] 3057449933 3940950471 2719734529.

(** TargetRead of length 4 with one byte of payload left. *)
Definition read_past_stream_patch : bytes :=
  [x42; x50; x53; x31; x80; x84; x80; x8d; x41;
   x00; x00; x00; x00; x8b; x9e; xd9; xd3; x79; x6f; x5c; xcd].

Definition read_past_stream : BPSPatch :=
  container 0 4 [x8d; x41] 0 3554254475 3445387129.

(** SourceRead of length 2 into a target of 1 byte. *)
Definition write_past_target_patch : bytes :=
  [x42; x50; x53; x31; x82; x81; x80; x84;
   x92; x42; xcc; xb6; x92; x42; xcc; xb6; xad; xef; xd0; xcb].

Definition write_past_target : BPSPatch :=
  container 2 1 [x84] 3066839698 3066839698 3419467693.

(** SourceCopy of length 2 and nothing after the action. *)
Definition copy_without_delta_patch : bytes :=
  [x42; x50; x53; x31; x82; x82; x80; x86;
   x92; x42; xcc; xb6; x00; x00; x00; x00; x50; x5f; xde; x5d].

Definition copy_without_delta : BPSPatch :=
  container 2 2 [x86] 3066839698 0 1574854480.

(** Three SourceCopy of length 2, with deltas +4, -3 and +1. *)
Definition three_copies_patch : bytes :=
  [x42; x50; x53; x31; x88; x86; x80; x86; x88; x86; x87; x86; x82;
   x3c; x91; x46; xb2; x76; x90; x1e; xd1; x84; x8b; x8a; xb5].

Definition three_copies : BPSPatch :=
  container 8 6 [x86; x88; x86; x87; x86; x82]
            2990969148 3508441206 3045755780.

(** TargetCopy of length 5 with delta 0 into a target of 2 bytes. *)
Definition copy_past_target_patch : bytes :=
  [x42; x50; x53; x31; x80; x82; x80; x93; x80;
   x00; x00; x00; x00; x00; x00; x00; x00; x31; x35; x4f; x36].

Definition copy_past_target : BPSPatch :=
  container 0 2 [x93; x80] 0 0 911160625.

(** The loop of [three_copies] on [source_8] after its first turn. *)
Definition after_first_copy : RunState :=
  {| target := [x0e; x0f; x00; x00; x00; x00];
     stream := [x86; x87; x86; x82];
     output_offset := 2;
     source_relative_offset := 6;
     target_relative_offset := 0 |}.

(** The loop on a target of six bytes after one byte [x41] has been
    written by a TargetRead, with a TargetCopy of length 5 and the delta
    byte [d] still to read. *)
Definition after_one_byte (d : byte) : RunState :=
  {| target := [x41; x00; x00; x00; x00; x00];
     stream := [x93; d];
     output_offset := 1;
     source_relative_offset := 0;
     target_relative_offset := 0 |}.

(** Whether the turn that starts in [st] stays inside its buffers: the
    [length] bytes it writes end within the target, and the [length] bytes
    it reads are there, in the source from [output_offset] (SourceRead) or
    from a cursor that is not negative (SourceCopy), or in the action
    stream (TargetRead). *)
Definition turn_in_bounds (source : bytes) (st : RunState) : bool :=
  match read_number_io (stream st) with
  | (None, _) => true
  | (Some action, rest) =>
      let command := Z.land action 3 in
      let length := Z.shiftr action 2 + 1 in
      let o := output_offset st in
      (o + length <=? len (target st))
      && (if command =? Action_value SourceRead then
            o + length <=? len source
          else if command =? Action_value TargetRead then
            length <=? len rest
          else if command =? Action_value SourceCopy then
            match read_number_io rest with
            | (None, _) => true
            | (Some data, _) =>
                let sro := source_relative_offset st + signed_delta data in
                (0 <=? sro) && (sro + length <=? len source)
            end
          else true)
  end.

(** Two more patches with a right header and checksum: in the first the
    bytes after [source_size] (which is 0) hold no complete number, in the
    second the bytes after [source_size] and [target_size] (both 0). *)
Definition patch_without_target_size : bytes :=
  [x42; x50; x53; x31; x80; x0d; x12; x0e; x62; x72].

Definition patch_without_metadata_size : bytes :=
  [x42; x50; x53; x31; x80; x80; x0f; x5c; x07; x5b; x3f].


(** Whether a byte ends a number: [x & 0x80] of [read_number_io]. *)
Definition terminal (x : byte) : bool :=
  negb (Z.land (byte_val x) 0x80 =? 0).

(** The two calls of [main] between its reads and its write:
    [BPSPatch(base_patch).patch_rom(source)]. *)
Definition apply_patch (patch source : bytes) : result bytes :=
  patcher <- BPSPatch_init patch ;;
  patch_rom patcher source.

(** SourceRead of length 2 into a target of 4 bytes: the actions stop two
    bytes short of the target size. *)
Definition short_actions : BPSPatch :=
  container 2 4 [x84] 3066839698 2591845399 0.

(** The write cursor is inside the buffer and the buffer is zero from the
    cursor on. *)
Definition zero_from_cursor (st : RunState) : Prop :=
  0 <= output_offset st <= len (target st)
  /\ skipn (Z.to_nat (output_offset st)) (target st)
     = repeat x00 (length (target st) - Z.to_nat (output_offset st)).

(** TargetRead of length 295166061423519862817, which is above
    [sys.maxsize], with one byte of payload; the action is the ten bytes
    [x01], eight times [x00], [xff]. *)
Definition huge_read_patch : bytes :=
  [x42; x50; x53; x31; x80; x81; x80;
   x01; x00; x00; x00; x00; x00; x00; x00; x00; xff; x41;
   x00; x00; x00; x00; x8b; x9e; xd9; xd3; x67; x64; xc7; xf0].

Definition huge_read : BPSPatch :=
  container 0 1 [x01; x00; x00; x00; x00; x00; x00; x00; x00; xff; x41]
            0 3554254475 4039599207.

(* ================================================================== *)
(** * Properties *)

(* ------------------------------------------------------------------ *)
(** ** Bytes *)

Lemma byte_val_range (b : byte) : 0 <= byte_val b < 256.
Proof.
  unfold byte_val. pose proof (Byte.to_N_bounded b). lia.
Qed.

Lemma byte_val_of (z : Z) : 0 <= z < 256 -> byte_val (byte_of z) = z.
Proof.
  intros Hz. unfold byte_val, byte_of.
  destruct (Byte.of_N (Z.to_N z)) as [b|] eqn:E.
  - apply Byte.to_of_N in E. rewrite E. lia.
  - apply Byte.of_N_None_iff in E. lia.
Qed.

Lemma convert_uint_one (b : byte) : convert_uint [b] = byte_val b.
Proof. cbn [convert_uint]. lia. Qed.

(** A boolean property checked on [0..k) holds on every integer there. *)
Lemma Z_below_forallb (P : Z -> bool) (k : nat) :
  forallb P (map Z.of_nat (seq 0 k)) = true ->
  forall z, 0 <= z < Z.of_nat k -> P z = true.
Proof.
  intros H z Hz. rewrite forallb_forall in H. apply H.
  apply in_map_iff. exists (Z.to_nat z). split; [lia|].
  apply in_seq. lia.
Qed.

Lemma low7_terminal (n : Z) :
  0 <= n < 128 ->
  let v := Z.lor 0x80 (Z.land n 0x7f) in
  0 <= v < 256 /\ Z.land v 0x7f = n /\ (Z.land v 0x80 =? 0) = false.
Proof.
  intros Hn.
  pose proof (Z_below_forallb
    (fun n => let v := Z.lor 0x80 (Z.land n 0x7f) in
              (0 <=? v) && (v <? 256) && (Z.land v 0x7f =? n)
              && negb (Z.land v 0x80 =? 0)) 128 eq_refl n Hn) as H.
  cbv beta zeta in H |- *.
  repeat (apply andb_prop in H; destruct H as [H ?]).
  rewrite negb_true_iff in *. lia.
Qed.

Lemma low7_continue (n : Z) :
  0 <= n ->
  let v := Z.land n 0x7f in
  0 <= v < 256 /\ Z.land v 0x7f = n mod 128 /\ (Z.land v 0x80 =? 0) = true.
Proof.
  intros Hn v.
  assert (v = n mod 128) as Hv by (apply (Z.land_ones n 7); lia).
  pose proof (Z.mod_pos_bound n 128 ltac:(lia)) as Hm.
  rewrite Hv.
  pose proof (Z_below_forallb
    (fun v => (Z.land v 0x7f =? v) && (Z.land v 0x80 =? 0)) 128 eq_refl
    (n mod 128) Hm) as H.
  cbv beta in H. apply andb_prop in H. lia.
Qed.

(* ------------------------------------------------------------------ *)
(** ** The variable-length integers *)

(** Decoding what the encoder wrote, from any state of the two locals of
    the decoder's loop. *)
Lemma read_number_loop_encode (n : Z) :
  0 <= n ->
  forall data shift rest,
    read_number_loop data shift (encode_number n ++ rest)
    = (Some (data + n * shift), rest).
Proof.
  funelim (encode_number n); intros Hn data0 shift rest.
  - destruct (low7_terminal data ltac:(lia)) as (Hr & H7 & H8).
    cbn [app read_number_loop].
    rewrite convert_uint_one, byte_val_of by exact Hr.
    rewrite H8, H7. reflexivity.
  - destruct (low7_continue data Hn) as (Hr & H7 & H8).
    cbn [app read_number_loop].
    rewrite convert_uint_one, byte_val_of by exact Hr.
    rewrite H8, H7.
    assert (Z.shiftr data 7 = data / 128) as Hs
      by (rewrite Z.shiftr_div_pow2 by lia; reflexivity).
    assert (0 < data / 128) by (apply Z.div_str_pos; lia).
    rewrite H by lia.
    rewrite Z.shiftl_mul_pow2 by lia. change (2 ^ 7) with 128.
    rewrite Hs. f_equal. f_equal.
    pose proof (Z.div_mod data 128 ltac:(lia)). nia.
Qed.

(** A number cut short, with its terminal byte missing, decodes to
    [None]. *)
Lemma read_number_loop_truncated (n : Z) :
  0 <= n ->
  forall k data shift,
    (k < length (encode_number n))%nat ->
    read_number_loop data shift (firstn k (encode_number n)) = (None, []).
Proof.
  funelim (encode_number n); intros Hn k data0 shift Hk.
  - cbn [length] in Hk. replace k with O by lia. reflexivity.
  - destruct k as [|k]; [reflexivity|].
    destruct (low7_continue data Hn) as (Hr & H7 & H8).
    cbn [firstn read_number_loop].
    rewrite convert_uint_one, byte_val_of by exact Hr.
    rewrite H8.
    assert (Z.shiftr data 7 = data / 128) as Hs
      by (rewrite Z.shiftr_div_pow2 by lia; reflexivity).
    assert (0 < data / 128) by (apply Z.div_str_pos; lia).
    apply H; [lia|]. cbn [length] in Hk. lia.
Qed.

Lemma byte_of_val (b : byte) : byte_of (byte_val b) = b.
Proof.
  unfold byte_of, byte_val. rewrite N2Z.id, Byte.of_to_N. reflexivity.
Qed.

(** The two kinds of byte: a terminal byte is its low seven bits with the
    high bit set, a non-terminal byte is its low seven bits. *)
Lemma byte_high_bit (b : byte) :
  let x := byte_val b in
  0 <= Z.land x 0x7f < 128
  /\ (if Z.land x 0x80 =? 0
      then Z.land x 0x7f = x
      else Z.lor 0x80 (Z.land (Z.land x 0x7f) 0x7f) = x).
Proof.
  pose proof (Z_below_forallb
    (fun x => (0 <=? Z.land x 0x7f) && (Z.land x 0x7f <? 128)
              && (if Z.land x 0x80 =? 0
                  then Z.land x 0x7f =? x
                  else Z.lor 0x80 (Z.land (Z.land x 0x7f) 0x7f) =? x))
    256 eq_refl (byte_val b) (byte_val_range b)) as H.
  cbv beta in H |- *. cbv zeta.
  apply andb_prop in H. destruct H as [H H3].
  apply andb_prop in H. destruct H as [H1 H2].
  split; [lia|].
  destruct (Z.land (byte_val b) 128 =? 0); lia.
Qed.

(** The encoding is canonical: the bytes from which the decoder reads a
    number are the encoding of that number, and nothing else decodes to
    it. *)
Lemma read_number_loop_canonical (b : bytes) :
  forall data shift v rest,
    read_number_loop data shift b = (Some v, rest) ->
    exists m, 0 <= m /\ v = data + m * shift /\ b = encode_number m ++ rest.
Proof.
  induction b as [|x b IH]; intros data shift v rest; cbn [read_number_loop].
  - discriminate.
  - rewrite convert_uint_one.
    destruct (byte_high_bit x) as [Hlow Hhigh]. cbv zeta in Hlow, Hhigh.
    destruct (Z.land (byte_val x) 128 =? 0).
    + intros H. apply IH in H. destruct H as (m & Hm & -> & ->).
      exists (byte_val x + 128 * (m + 1)). split; [lia|].
      rewrite Z.shiftl_mul_pow2 by lia. change (2 ^ 7) with 128.
      split; [rewrite Hhigh; ring|].
      rewrite (encode_number_equation_1 (byte_val x + 128 * (m + 1))).
      unfold encode_number_unfold_clause_1.
      destruct (Z_lt_le_dec (byte_val x + 128 * (m + 1)) 128) as [Hlt|Hge];
        [lia|].
      assert (Z.land (byte_val x + 128 * (m + 1)) 127 = byte_val x) as ->.
      { change 127 with (Z.ones 7). rewrite Z.land_ones by lia.
        change (2 ^ 7) with 128.
        rewrite (Z.mul_comm 128 (m + 1)), Z.mod_add by lia.
        apply Z.mod_small. lia. }
      assert (Z.shiftr (byte_val x + 128 * (m + 1)) 7 - 1 = m) as ->.
      { rewrite Z.shiftr_div_pow2 by lia. change (2 ^ 7) with 128.
        rewrite (Z.mul_comm 128 (m + 1)), Z.div_add by lia.
        rewrite (Z.div_small (byte_val x)) by lia. lia. }
      rewrite byte_of_val. reflexivity.
    + intros H. injection H as <- <-.
      exists (Z.land (byte_val x) 127). split; [lia|]. split; [reflexivity|].
      rewrite encode_number_equation_1. unfold encode_number_unfold_clause_1.
      destruct (Z_lt_le_dec (Z.land (byte_val x) 127) 128) as [Hlt|Hge];
        [|lia].
      rewrite Hhigh, byte_of_val. reflexivity.
Qed.

Lemma encode_number_canonical (b rest : bytes) (n : Z) :
  read_number_io b = (Some n, rest) -> b = encode_number n ++ rest.
Proof.
  intros H. apply read_number_loop_canonical in H.
  destruct H as (m & _ & -> & ->). f_equal. f_equal. lia.
Qed.

(** C8: for every [n] in [[0, 2^32)], decoding the encoding of [n] gives
    back [n] and leaves exactly the bytes that follow the encoding; a
    proper prefix of the encoding, and the empty stream, decode to [None],
    which is not the number zero. *)
Theorem varint_roundtrip (n : Z) (rest : bytes) :
  0 <= n < 2 ^ 32 ->
  read_number_io (encode_number n ++ rest) = (Some n, rest)
  /\ (forall k, (k < length (encode_number n))%nat ->
        read_number_io (firstn k (encode_number n)) = (None, []))
  /\ read_number_io [] = (None, [])
  /\ fst (read_number_io []) <> Some 0.
Proof.
  intros [Hn _]. unfold read_number_io. repeat split.
  - rewrite read_number_loop_encode by exact Hn. f_equal. f_equal. lia.
  - intros k Hk. apply read_number_loop_truncated; assumption.
  - discriminate.
Qed.

Lemma varint_roundtrip_witness :
  read_number_io (encode_number 70000 ++ [x41]) = (Some 70000, [x41]).
Proof.
  apply (varint_roundtrip 70000 [x41]). lia.
Defined.

(* ------------------------------------------------------------------ *)
(** ** Slices *)

Lemma len_nonneg {A} (l : list A) : 0 <= len l.
Proof. unfold len. lia. Qed.

Lemma getslice_prefix {A} (l : list A) (n : Z) :
  0 <= n -> Py.getslice l None (Some n) = firstn (Z.to_nat n) l.
Proof.
  intros Hn. unfold Py.getslice, Py.bound, Py.adjust_index, len.
  destruct (n <? 0) eqn:E; [lia|].
  rewrite Z.sub_0_r. cbn [Z.to_nat skipn].
  destruct (Z.min_spec n (Z.of_nat (length l))) as [[H ->]|[H ->]].
  - reflexivity.
  - rewrite Nat2Z.id. rewrite !firstn_all2 by lia. reflexivity.
Qed.

Lemma getslice_suffix {A} (l : list A) (n : Z) :
  0 <= n -> Py.getslice l (Some n) None = skipn (Z.to_nat n) l.
Proof.
  intros Hn. unfold Py.getslice, Py.bound, Py.adjust_index, len.
  destruct (n <? 0) eqn:E; [lia|].
  destruct (Z.min_spec n (Z.of_nat (length l))) as [[H ->]|[H ->]].
  - apply firstn_all2. rewrite length_skipn. lia.
  - rewrite Nat2Z.id, Z.sub_diag. cbn [Z.to_nat firstn].
    rewrite !skipn_all2 by lia. reflexivity.
Qed.

Lemma getslice_drop_last {A} (l : list A) (n : Z) :
  0 < n -> Py.getslice l None (Some (- n)) = firstn (length l - Z.to_nat n) l.
Proof.
  intros Hn. unfold Py.getslice, Py.bound, Py.adjust_index, len.
  destruct (- n <? 0) eqn:E; [|lia].
  rewrite Z.sub_0_r. cbn [Z.to_nat skipn].
  f_equal. lia.
Qed.

Lemma getslice_last {A} (l : list A) (n : Z) :
  0 < n -> Py.getslice l (Some (- n)) None = skipn (length l - Z.to_nat n) l.
Proof.
  intros Hn. unfold Py.getslice, Py.bound, Py.adjust_index, len.
  destruct (- n <? 0) eqn:E; [|lia].
  replace (Z.to_nat (Z.max 0 (- n + Z.of_nat (length l))))
    with (length l - Z.to_nat n)%nat by lia.
  apply firstn_all2. rewrite length_skipn. lia.
Qed.

Lemma getslice_nil {A} (start stop : option Z) :
  Py.getslice (@nil A) start stop = [].
Proof.
  unfold Py.getslice. rewrite skipn_nil, firstn_nil. reflexivity.
Qed.

Lemma bytes_eqb_eq (a b : bytes) : bytes_eqb a b = true <-> a = b.
Proof.
  unfold bytes_eqb. destruct (list_eq_dec Byte.byte_eq_dec a b); split;
    congruence.
Qed.

(* ------------------------------------------------------------------ *)
(** ** [BPSPatch.__init__] *)

Lemma init_header_check (patch : bytes) :
  Py.getslice patch None (Some 4) = firstn 4 patch.
Proof. apply (getslice_prefix patch 4). lia. Qed.

Lemma init_checksum_slices (patch : bytes) :
  convert_uint (Py.getslice patch (Some (-4)) None) = stored_patch_checksum patch
  /\ Crc.crc32 (Py.getslice patch None (Some (-4))) = computed_patch_checksum patch.
Proof.
  unfold stored_patch_checksum, computed_patch_checksum.
  pose proof (getslice_last patch 4 ltac:(lia)) as H1.
  pose proof (getslice_drop_last patch 4 ltac:(lia)) as H2.
  change (- (4)) with (-4) in H1, H2.
  change (Z.to_nat 4) with 4%nat in H1, H2.
  rewrite H1, H2. split; reflexivity.
Qed.

(** C6: a patch whose first four bytes are not "BPS1" is rejected with
    [InvalidPatch], and so is a patch with that header whose last four
    bytes, read as a little-endian unsigned integer, differ from the CRC32
    of all the bytes before them; both hold whatever the rest of the patch
    is, so no other field is looked at first. *)
Theorem init_rejects_header_and_checksum (patch : bytes) :
  (firstn 4 patch <> MAGIC_HEADER ->
   BPSPatch_init patch
   = Raise (InvalidPatch (MagicHeaderIncorrect (firstn 4 patch))))
  /\ (firstn 4 patch = MAGIC_HEADER ->
      stored_patch_checksum patch <> computed_patch_checksum patch ->
      BPSPatch_init patch
      = Raise (InvalidPatch (PatchChecksumMismatch
                               (stored_patch_checksum patch)
                               (computed_patch_checksum patch)))).
Proof.
  unfold BPSPatch_init.
  rewrite init_header_check.
  destruct (init_checksum_slices patch) as [-> ->].
  split.
  - intros Hh.
    destruct (bytes_eqb (firstn 4 patch) MAGIC_HEADER) eqn:E.
    + apply bytes_eqb_eq in E. contradiction.
    + reflexivity.
  - intros Hh Hc.
    destruct (bytes_eqb (firstn 4 patch) MAGIC_HEADER) eqn:E.
    + cbn [negb].
      destruct (stored_patch_checksum patch =? computed_patch_checksum patch)
        eqn:E2; [lia | reflexivity].
    + rewrite Hh in E. unfold bytes_eqb in E.
      destruct (list_eq_dec byte_eq_dec MAGIC_HEADER MAGIC_HEADER);
        congruence.
Qed.

Lemma init_rejects_header_and_checksum_witness :
  BPSPatch_init [x42; x50; x53; x32; x00; x00; x00; x00]
  = Raise (InvalidPatch (MagicHeaderIncorrect [x42; x50; x53; x32]))
  /\ BPSPatch_init [x42; x50; x53; x31; x80; x00; x00; x00; x00]
     = Raise (InvalidPatch (PatchChecksumMismatch 0 1778640877)).
Proof.
  split.
  - apply (proj1 (init_rejects_header_and_checksum
                    [x42; x50; x53; x32; x00; x00; x00; x00])).
    discriminate.
  - apply (proj2 (init_rejects_header_and_checksum
                    [x42; x50; x53; x31; x80; x00; x00; x00; x00])).
    + reflexivity.
    + vm_compute. discriminate.
Defined.

Lemma read_number_loop_rest_le data shift b r :
  (length (snd (read_number_loop data shift b)) <= length b)%nat
  /\ (read_number_loop data shift b = (None, r) -> r = []).
Proof.
  revert data shift.
  induction b as [|x b IH]; intros data shift; cbn [read_number_loop].
  - split; [cbn; lia | congruence].
  - destruct (Z.land (convert_uint [x]) 128 =? 0).
    + destruct (IH (data + Z.land (convert_uint [x]) 127 * shift + Z.shiftl shift 7)
                  (Z.shiftl shift 7)) as [H1 H2].
      split; [cbn [length]; lia | exact H2].
    + split; [cbn; lia | discriminate].
Qed.

Lemma read_number_none (b r : bytes) :
  read_number b = (None, r) -> r = [].
Proof.
  unfold read_number, read_number_io.
  apply (proj2 (read_number_loop_rest_le 0 1 b r)).
Qed.

Lemma read_number_nil : read_number [] = (None, []).
Proof. reflexivity. Qed.

(** What [__init__] does once the header and the checksum have passed. *)
Lemma init_accepted (patch : bytes) :
  firstn 4 patch = MAGIC_HEADER ->
  stored_patch_checksum patch = computed_patch_checksum patch ->
  BPSPatch_init patch
  = let '(source_size, remainder) := read_number (skipn 4 patch) in
    let '(target_size, remainder) := read_number remainder in
    let '(metadata_size, remainder) := read_number remainder in
    match Utf8.decode (Py.getslice remainder None metadata_size) with
    | None => Raise UnicodeDecodeError
    | Some metadata =>
        Ok {| source_checksum :=
                convert_uint (Py.getslice patch (Some (-12)) (Some (-8)));
              target_checksum :=
                convert_uint (Py.getslice patch (Some (-8)) (Some (-4)));
              patch_checksum := stored_patch_checksum patch;
              source_size := source_size;
              target_size := target_size;
              metadata_size := metadata_size;
              metadata := metadata;
              actions := Py.getslice remainder metadata_size (Some (-12)) |}
    end.
Proof.
  intros Hh Hc. unfold BPSPatch_init.
  rewrite init_header_check, Hh.
  destruct (init_checksum_slices patch) as [-> ->].
  rewrite Hc, Z.eqb_refl.
  replace (bytes_eqb MAGIC_HEADER MAGIC_HEADER) with true by reflexivity.
  cbn [negb].
  rewrite (getslice_suffix patch 4) by lia.
  reflexivity.
Qed.

(** C7 (amended): when the stream ends before one of the three numbers of
    the header is complete, [__init__] does not fail: the object is built
    with [None] for that size and for the sizes after it, with empty
    metadata and an empty action stream. *)
Theorem init_accepts_missing_header_numbers (patch : bytes) :
  firstn 4 patch = MAGIC_HEADER ->
  stored_patch_checksum patch = computed_patch_checksum patch ->
  forall ss ts r1 r2 r3,
    (read_number (skipn 4 patch) = (None, r1) ->
     exists p, BPSPatch_init patch = Ok p
               /\ parsed_with p None None None
               /\ metadata p = [] /\ actions p = [])
    /\ (read_number (skipn 4 patch) = (Some ss, r1) ->
        read_number r1 = (None, r2) ->
        exists p, BPSPatch_init patch = Ok p
                  /\ parsed_with p (Some ss) None None
                  /\ metadata p = [] /\ actions p = [])
    /\ (read_number (skipn 4 patch) = (Some ss, r1) ->
        read_number r1 = (Some ts, r2) ->
        read_number r2 = (None, r3) ->
        exists p, BPSPatch_init patch = Ok p
                  /\ parsed_with p (Some ss) (Some ts) None
                  /\ metadata p = [] /\ actions p = []).
Proof.
  intros Hh Hc ss ts r1 r2 r3.
  rewrite (init_accepted patch Hh Hc).
  repeat split.
  - intros E1. rewrite E1.
    apply read_number_none in E1. subst r1.
    rewrite !read_number_nil, !getslice_nil. cbn [Utf8.decode].
    eexists. split; [reflexivity|]. repeat split.
  - intros E1 E2. rewrite E1, E2.
    apply read_number_none in E2. subst r2.
    rewrite !read_number_nil, !getslice_nil. cbn [Utf8.decode].
    eexists. split; [reflexivity|]. repeat split.
  - intros E1 E2 E3. rewrite E1, E2, E3.
    apply read_number_none in E3. subst r3.
    rewrite !getslice_nil. cbn [Utf8.decode].
    eexists. split; [reflexivity|]. repeat split.
Qed.

Lemma init_accepts_missing_header_numbers_witness :
  (exists p, BPSPatch_init patch_without_sizes = Ok p
             /\ parsed_with p None None None
             /\ metadata p = [] /\ actions p = [])
  /\ (exists p, BPSPatch_init patch_without_target_size = Ok p
                /\ parsed_with p (Some 0) None None
                /\ metadata p = [] /\ actions p = [])
  /\ (exists p, BPSPatch_init patch_without_metadata_size = Ok p
                /\ parsed_with p (Some 0) (Some 0) None
                /\ metadata p = [] /\ actions p = []).
Proof.
  split; [|split].
  - refine (proj1 (init_accepts_missing_header_numbers patch_without_sizes
                     _ _ 0 0 [] [] []) _).
    + reflexivity.
    + vm_compute. reflexivity.
    + vm_compute. reflexivity.
  - refine (proj1 (proj2 (init_accepts_missing_header_numbers
                            patch_without_target_size
                            _ _ 0 0 [x0d; x12; x0e; x62; x72] [] [])) _ _).
    + reflexivity.
    + vm_compute. reflexivity.
    + vm_compute. reflexivity.
    + vm_compute. reflexivity.
  - refine (proj2 (proj2 (init_accepts_missing_header_numbers
                            patch_without_metadata_size
                            _ _ 0 0 [x80; x0f; x5c; x07; x5b; x3f]
                            [x0f; x5c; x07; x5b; x3f] [])) _ _ _).
    + reflexivity.
    + vm_compute. reflexivity.
    + vm_compute. reflexivity.
    + vm_compute. reflexivity.
    + vm_compute. reflexivity.
Defined.

(** C7 as stated fails: [source_size] cannot be decoded from this patch,
    and [__init__] returns an object all the same. *)
Lemma init_truncated_header_counterexample :
  firstn 4 patch_without_sizes = MAGIC_HEADER
  /\ stored_patch_checksum patch_without_sizes
     = computed_patch_checksum patch_without_sizes
  /\ fst (read_number (skipn 4 patch_without_sizes)) = None
  /\ BPSPatch_init patch_without_sizes
     = Ok {| source_checksum := 66;
             target_checksum := 254890832;
             patch_checksum := 386169180;
             source_size := None;
             target_size := None;
             metadata_size := None;
             metadata := [];
             actions := [] |}.
Proof.
  repeat split; vm_compute; reflexivity.
Qed.

(* ------------------------------------------------------------------ *)
(** ** The loop of [patch_rom] *)

Lemma run_loop_eq source st :
  run_loop source st
  = match step source st with
    | Break => Ok st
    | Next st' => run_loop source st'
    | Fault e => Raise e
    end.
Proof.
  rewrite run_loop_equation_1. unfold run_loop_unfold_clause_1, inspect.
  destruct (step source st); reflexivity.
Qed.

Lemma run_loop_reaches source st st' :
  reaches source st st' -> run_loop source st = run_loop source st'.
Proof.
  induction 1 as [st|st st1 st2 Hstep _ IH].
  - reflexivity.
  - rewrite (run_loop_eq source st), Hstep. exact IH.
Qed.

Lemma reaches_trans source st1 st2 st3 :
  reaches source st1 st2 -> reaches source st2 st3 -> reaches source st1 st3.
Proof.
  induction 1; intros; eauto using reaches.
Qed.

(** The loop ends in the state in which [read_number_io] finds no action,
    and that state is reached from the first one. *)
Lemma run_loop_ok source :
  forall st st', run_loop source st = Ok st' ->
                 reaches source st st' /\ step source st' = Break.
Proof.
  intros st.
  remember (length (stream st)) as n eqn:Hn.
  revert st Hn.
  induction n as [n IH] using lt_wf_ind.
  intros st Hn st'. rewrite run_loop_eq.
  destruct (step source st) as [|st1|e] eqn:E.
  - intros H. injection H as <-. split; [constructor | exact E].
  - intros H.
    destruct (IH (length (stream st1))
                (eq_ind_r (fun k => (length (stream st1) < k)%nat)
                          (step_consumes source st st1 E) Hn)
                st1 eq_refl st' H) as [Hr Hb].
    split; [econstructor; eassumption | exact Hb].
  - discriminate.
Qed.

(** What [patch_rom] does once the two checks of the source have passed
    and the target has been allocated. *)
Lemma patch_rom_checked (self : BPSPatch) (source : bytes) (n : Z) :
  source_size self = Some (len source) ->
  Crc.crc32 source = source_checksum self ->
  target_size self = Some n ->
  patch_rom self source
  = (st <- run_loop source (initial_state self n) ;;
     when negb (Crc.crc32 (target st) =? target_checksum self)
       raise InvalidPatch (TargetChecksumMismatch (Crc.crc32 (target st))
                                                  (target_checksum self)) ;;
     Ok (target st)).
Proof.
  intros Hs Hc Ht. unfold patch_rom, initial_state.
  rewrite Hs, Hc, Ht. cbn [int_ne]. rewrite !Z.eqb_refl. reflexivity.
Qed.

(* ------------------------------------------------------------------ *)
(** ** The checks of the source *)

(** C5: when the length of [source] is not [source_size], [patch_rom]
    raises [InvalidPatch] for the size; when the length is right and the
    CRC32 of [source] is not [source_checksum], it raises [InvalidPatch]
    for the checksum.  Both hold whatever the action stream and the target
    size are, and the caller gets no target buffer. *)
Theorem patch_rom_checks_source_first (self : BPSPatch) (source : bytes) :
  (source_size self <> Some (len source) ->
   patch_rom self source
   = Raise (InvalidPatch (SourceSizeMismatch (len source) (source_size self)))
   /\ returned_target (patch_rom self source) = None)
  /\ (source_size self = Some (len source) ->
      Crc.crc32 source <> source_checksum self ->
      patch_rom self source
      = Raise (InvalidPatch (SourceChecksumMismatch (Crc.crc32 source)
                                                    (source_checksum self)))
      /\ returned_target (patch_rom self source) = None).
Proof.
  unfold patch_rom. split.
  - intros Hs.
    assert (int_ne (len source) (source_size self) = true) as ->.
    { destruct (source_size self) as [n|]; [|reflexivity]. cbn [int_ne].
      destruct (len source =? n) eqn:E; [|reflexivity].
      apply Z.eqb_eq in E. congruence. }
    split; reflexivity.
  - intros Hs Hc. rewrite Hs. cbn [int_ne]. rewrite Z.eqb_refl. cbn [negb].
    destruct (Crc.crc32 source =? source_checksum self) eqn:E.
    + apply Z.eqb_eq in E. contradiction.
    + split; reflexivity.
Qed.

Lemma patch_rom_checks_source_first_witness :
  (patch_rom read_past_source source_1234
   = Raise (InvalidPatch (SourceSizeMismatch 4 (Some 2)))
   /\ returned_target (patch_rom read_past_source source_1234) = None)
  /\ (patch_rom read_past_source [x01; x03]
      = Raise (InvalidPatch (SourceChecksumMismatch (Crc.crc32 [x01; x03])
                                                    3066839698))
      /\ returned_target (patch_rom read_past_source [x01; x03]) = None).
Proof.
  split.
  - apply (proj1 (patch_rom_checks_source_first read_past_source source_1234)).
    discriminate.
  - apply (proj2 (patch_rom_checks_source_first read_past_source [x01; x03])).
    + reflexivity.
    + vm_compute. discriminate.
Defined.

(** Each sample patch is accepted by [__init__], which builds the
    container given with it. *)
Lemma sample_patches_parse :
  BPSPatch_init identity_patch = Ok identity
  /\ BPSPatch_init identity_bad_target_patch = Ok identity_bad_target
  /\ BPSPatch_init fill_minus_one_patch = Ok fill_minus_one
  /\ BPSPatch_init fill_zero_patch = Ok fill_zero
  /\ BPSPatch_init read_past_source_patch = Ok read_past_source
  /\ BPSPatch_init copy_before_source_patch = Ok copy_before_source
  /\ BPSPatch_init read_past_stream_patch = Ok read_past_stream
  /\ BPSPatch_init write_past_target_patch = Ok write_past_target
  /\ BPSPatch_init copy_without_delta_patch = Ok copy_without_delta
  /\ BPSPatch_init three_copies_patch = Ok three_copies
  /\ BPSPatch_init copy_past_target_patch = Ok copy_past_target.
Proof.
  repeat split; vm_compute; reflexivity.
Qed.

(** The end-to-end scenario: the patch is accepted, and applied to its
    four-byte source it returns that source. *)
Example identity_patch_applies :
  (p <- BPSPatch_init identity_patch ;; patch_rom p source_1234)
  = Ok source_1234.
Proof. vm_compute. reflexivity. Qed.

(* ------------------------------------------------------------------ *)
(** ** One turn of the loop, by command *)

Lemma read_number_loop_nonneg data shift b v r :
  0 <= data -> 0 <= shift ->
  read_number_loop data shift b = (Some v, r) -> 0 <= v.
Proof.
  revert data shift.
  induction b as [|x b IH]; intros data shift Hd Hs; cbn [read_number_loop].
  - discriminate.
  - rewrite convert_uint_one.
    assert (0 <= Z.land (byte_val x) 127)
      by (apply Z.land_nonneg; right; lia).
    assert (0 <= Z.shiftl shift 7) by (apply Z.shiftl_nonneg; lia).
    destruct (Z.land (byte_val x) 128 =? 0).
    + apply IH; nia.
    + intros H1. injection H1 as <- _. nia.
Qed.

Lemma read_number_io_nonneg b v r :
  read_number_io b = (Some v, r) -> 0 <= v.
Proof.
  apply read_number_loop_nonneg; lia.
Qed.

(** The length of an instruction is at least one. *)
Lemma action_length_pos b action r :
  read_number_io b = (Some action, r) -> 1 <= Z.shiftr action 2 + 1.
Proof.
  intros H. apply read_number_io_nonneg in H.
  assert (0 <= Z.shiftr action 2) by (apply Z.shiftr_nonneg; lia). lia.
Qed.

Lemma command_range (action : Z) : 0 <= Z.land action 3 < 4.
Proof.
  change 3 with (Z.ones 2). rewrite Z.land_ones by lia.
  apply Z.mod_pos_bound. lia.
Qed.

Section Turn.

Variable source : bytes.
Variable st : RunState.
Variables (action : Z) (rest : bytes).
Hypothesis Haction : read_number_io (stream st) = (Some action, rest).

Let length_ := Z.shiftr action 2 + 1.
Let o := output_offset st.

Lemma step_source_read :
  Z.land action 3 = Action_value SourceRead ->
  step source st
  = Next {| target := Py.setslice (target st) o (o + length_)
                        (Py.getslice source (Some o) (Some (o + length_)));
            stream := rest;
            output_offset := o + length_;
            source_relative_offset := source_relative_offset st;
            target_relative_offset := target_relative_offset st |}.
Proof.
  intros Hc. unfold step. rewrite Haction, Hc. reflexivity.
Qed.

Lemma step_target_read :
  Z.land action 3 = Action_value TargetRead ->
  length_ <= Py.maxsize ->
  step source st
  = Next {| target := Py.setslice (target st) o (o + length_)
                        (firstn (Z.to_nat length_) rest);
            stream := skipn (Z.to_nat length_) rest;
            output_offset := o + length_;
            source_relative_offset := source_relative_offset st;
            target_relative_offset := target_relative_offset st |}.
Proof.
  intros Hc Hmax. unfold step. rewrite Haction, Hc. cbn [Action_value Z.eqb].
  unfold Py.read.
  pose proof (action_length_pos _ _ _ Haction) as HL.
  fold length_ in HL |- *.
  assert (0 < Py.maxsize) by reflexivity.
  assert ((length_ <? - Py.maxsize - 1) = false) as ->
    by (apply Z.ltb_ge; lia).
  assert ((Py.maxsize <? length_) = false) as -> by (apply Z.ltb_ge; lia).
  assert ((length_ <? 0) = false) as -> by (apply Z.ltb_ge; lia).
  reflexivity.
Qed.

(** A TargetRead of more bytes than [sys.maxsize] raises the
    [OverflowError] of [actions.read]. *)
Lemma step_target_read_overflow :
  Z.land action 3 = Action_value TargetRead ->
  Py.maxsize < length_ ->
  step source st = Fault OverflowError.
Proof.
  intros Hc Hmax. unfold step. rewrite Haction, Hc. cbn [Action_value Z.eqb].
  unfold Py.read. fold length_.
  assert ((Py.maxsize <? length_) = true) as -> by (apply Z.ltb_lt; lia).
  rewrite orb_true_r. reflexivity.
Qed.

Lemma step_source_copy data rest' :
  Z.land action 3 = Action_value SourceCopy ->
  read_number_io rest = (Some data, rest') ->
  let sro := source_relative_offset st + signed_delta data in
  step source st
  = Next {| target := Py.setslice (target st) o (o + length_)
                        (Py.getslice source (Some sro) (Some (sro + length_)));
            stream := rest';
            output_offset := o + length_;
            source_relative_offset := sro + length_;
            target_relative_offset := target_relative_offset st |}.
Proof.
  intros Hc Hd. unfold step. rewrite Haction, Hc. cbn [Action_value Z.eqb].
  rewrite Hd. reflexivity.
Qed.

Lemma step_target_copy data rest' :
  Z.land action 3 = Action_value TargetCopy ->
  read_number_io rest = (Some data, rest') ->
  let tro := target_relative_offset st + signed_delta data in
  step source st
  = match target_copy (Z.to_nat length_) (target st) o tro with
    | None => Fault IndexError
    | Some (target', o', tro') =>
        Next {| target := target';
                stream := rest';
                output_offset := o';
                source_relative_offset := source_relative_offset st;
                target_relative_offset := tro' |}
    end.
Proof.
  intros Hc Hd. unfold step. rewrite Haction, Hc. cbn [Action_value Z.eqb].
  rewrite Hd. reflexivity.
Qed.

Lemma step_copy_no_delta r :
  Z.land action 3 = Action_value SourceCopy
  \/ Z.land action 3 = Action_value TargetCopy ->
  read_number_io rest = (None, r) ->
  step source st = Fault TypeError.
Proof.
  intros [Hc|Hc] Hd; unfold step; rewrite Haction, Hc;
    cbn [Action_value Z.eqb]; rewrite Hd; reflexivity.
Qed.

End Turn.

(** The four commands are all there is. *)
Lemma command_cases (action : Z) :
  Z.land action 3 = Action_value SourceRead
  \/ Z.land action 3 = Action_value TargetRead
  \/ Z.land action 3 = Action_value SourceCopy
  \/ Z.land action 3 = Action_value TargetCopy.
Proof.
  pose proof (command_range action). cbn [Action_value]. lia.
Qed.

(** The [for] loop of TargetCopy moves both cursors by the number of its
    turns and keeps the length of the buffer. *)
Lemma target_copy_offsets n :
  forall t o tro t' o' tro',
    target_copy n t o tro = Some (t', o', tro') ->
    o' = o + Z.of_nat n /\ tro' = tro + Z.of_nat n /\ length t' = length t.
Proof.
  induction n as [|n IH]; intros t o tro t' o' tro'; cbn [target_copy].
  - intros H. injection H as <- <- <-. repeat split; lia.
  - destruct (Py.getitem t tro) as [v|]; [|discriminate].
    unfold Py.setitem.
    destruct (Py.index (len t) o) as [j|] eqn:Ej; [|discriminate].
    intros H. apply IH in H. destruct H as (-> & -> & ->).
    assert (j < length t)%nat.
    { unfold Py.index, len in Ej.
      destruct ((if o <? 0 then o + Z.of_nat (length t) else o) <? 0) eqn:E1;
        [discriminate|].
      destruct (Z.of_nat (length t) <=? (if o <? 0 then o + Z.of_nat (length t) else o))
        eqn:E2; [discriminate|].
      cbn [orb] in Ej. injection Ej as <-. lia. }
    repeat split; try lia.
    rewrite length_app, length_firstn. cbn [length]. rewrite length_skipn. lia.
Qed.

(* ------------------------------------------------------------------ *)
(** ** A copy action without its delta *)

(** C10: when the action stream ends right after the action of a
    SourceCopy or TargetCopy, so that [read_number_io] returns [None] for
    the delta, the turn raises [TypeError] ([None & 1]), and so does
    [patch_rom] from whatever state of its loop this happens in: it neither
    returns a target nor raises [InvalidPatch]. *)
Theorem copy_without_delta_raises_type_error
  (self : BPSPatch) (source : bytes) (n : Z) (st : RunState)
  (action : Z) (rest r : bytes) :
  source_size self = Some (len source) ->
  Crc.crc32 source = source_checksum self ->
  target_size self = Some n ->
  reaches source (initial_state self n) st ->
  read_number_io (stream st) = (Some action, rest) ->
  Z.land action 3 = Action_value SourceCopy
  \/ Z.land action 3 = Action_value TargetCopy ->
  read_number_io rest = (None, r) ->
  step source st = Fault TypeError
  /\ patch_rom self source = Raise TypeError
  /\ (forall t, patch_rom self source <> Ok t)
  /\ (forall msg, patch_rom self source <> Raise (InvalidPatch msg)).
Proof.
  intros Hs Hc Ht Hreach Ha Hcmd Hd.
  pose proof (step_copy_no_delta source st action rest Ha r Hcmd Hd) as Hstep.
  assert (patch_rom self source = Raise TypeError) as Hrun.
  { rewrite (patch_rom_checked self source n Hs Hc Ht).
    rewrite (run_loop_reaches source _ st Hreach).
    rewrite run_loop_eq, Hstep. reflexivity. }
  rewrite Hrun. repeat split; try assumption; intros; discriminate.
Qed.

Lemma copy_without_delta_raises_type_error_witness :
  patch_rom copy_without_delta [x01; x02] = Raise TypeError.
Proof.
  refine (proj1 (proj2 (copy_without_delta_raises_type_error
                          copy_without_delta [x01; x02] 2
                          (initial_state copy_without_delta 2)
                          6 [] [] _ _ _ _ _ _ _))).
  - reflexivity.
  - vm_compute. reflexivity.
  - reflexivity.
  - constructor.
  - reflexivity.
  - left. reflexivity.
  - reflexivity.
Defined.

(* ------------------------------------------------------------------ *)
(** ** The two relative cursors *)

(** The low bit of a delta is its sign, the other bits its magnitude. *)
Lemma signed_delta_sign_magnitude (data : Z) :
  signed_delta data
  = (if Z.testbit data 0 then -1 else 1) * Z.shiftr data 1.
Proof.
  unfold signed_delta. f_equal.
  change 1 with (Z.ones 1) at 1. rewrite Z.land_ones by lia.
  change (2 ^ 1) with 2. rewrite Zmod_odd, Z.bit0_odd.
  destruct (Z.odd data); reflexivity.
Qed.

(** A completed turn changes a relative cursor only if it is a copy of
    the cursor's kind. *)
Lemma step_other_cursor source st st' action rest :
  read_number_io (stream st) = (Some action, rest) ->
  step source st = Next st' ->
  (Z.land action 3 <> Action_value SourceCopy ->
   source_relative_offset st' = source_relative_offset st)
  /\ (Z.land action 3 <> Action_value TargetCopy ->
      target_relative_offset st' = target_relative_offset st).
Proof.
  intros Ha Hstep.
  destruct (command_cases action) as [Hc|[Hc|[Hc|Hc]]].
  - rewrite (step_source_read source st action rest Ha Hc) in Hstep.
    injection Hstep as <-. split; reflexivity.
  - destruct (Z_le_gt_dec (Z.shiftr action 2 + 1) Py.maxsize) as [Hmax|Hmax];
      [|rewrite (step_target_read_overflow source st action rest Ha Hc)
          in Hstep by lia; discriminate].
    rewrite (step_target_read source st action rest Ha Hc Hmax) in Hstep.
    injection Hstep as <-. split; reflexivity.
  - destruct (read_number_io rest) as [[data|] rest'] eqn:Hd.
    + rewrite (step_source_copy source st action rest Ha data rest' Hc Hd)
        in Hstep.
      injection Hstep as <-. split; [congruence | reflexivity].
    + rewrite (step_copy_no_delta source st action rest Ha rest' (or_introl Hc) Hd)
        in Hstep.
      discriminate.
  - destruct (read_number_io rest) as [[data|] rest'] eqn:Hd.
    + rewrite (step_target_copy source st action rest Ha data rest' Hc Hd)
        in Hstep.
      destruct target_copy as [[[t o'] tro']|]; [|discriminate].
      injection Hstep as <-. split; [reflexivity | congruence].
    + rewrite (step_copy_no_delta source st action rest Ha rest' (or_intror Hc) Hd)
        in Hstep.
      discriminate.
Qed.

(** C1: a SourceCopy decodes one more number, adds to
    [source_relative_offset] the magnitude [data >> 1] with the sign of the
    low bit of [data] (1 for negative), copies from the cursor so moved,
    and leaves the cursor [length] further; a TargetCopy does the same with
    [target_relative_offset]; a turn of another kind leaves a cursor where
    it was.  So the second of two SourceCopy actions in a row reads at the
    cursor the first one left plus its own delta, wherever [output_offset]
    is. *)
Theorem copy_cursors_persist
  (source : bytes) (st : RunState) (action : Z) (rest : bytes) :
  read_number_io (stream st) = (Some action, rest) ->
  let length_ := Z.shiftr action 2 + 1 in
  let o := output_offset st in
  let delta data := (if Z.testbit data 0 then -1 else 1) * Z.shiftr data 1 in
  (forall data rest',
      Z.land action 3 = Action_value SourceCopy ->
      read_number_io rest = (Some data, rest') ->
      let base := source_relative_offset st + delta data in
      step source st
      = Next {| target := Py.setslice (target st) o (o + length_)
                            (Py.getslice source (Some base)
                                         (Some (base + length_)));
                stream := rest';
                output_offset := o + length_;
                source_relative_offset := base + length_;
                target_relative_offset := target_relative_offset st |})
  /\ (forall data rest' st',
         Z.land action 3 = Action_value TargetCopy ->
         read_number_io rest = (Some data, rest') ->
         step source st = Next st' ->
         let base := target_relative_offset st + delta data in
         target_copy (Z.to_nat length_) (target st) o base
         = Some (target st', o + length_, base + length_)
         /\ output_offset st' = o + length_
         /\ target_relative_offset st' = base + length_
         /\ source_relative_offset st' = source_relative_offset st)
  /\ (forall st',
         step source st = Next st' ->
         (Z.land action 3 <> Action_value SourceCopy ->
          source_relative_offset st' = source_relative_offset st)
         /\ (Z.land action 3 <> Action_value TargetCopy ->
             target_relative_offset st' = target_relative_offset st))
  /\ (forall data rest1 action2 rest2 data2 rest3,
         Z.land action 3 = Action_value SourceCopy ->
         read_number_io rest = (Some data, rest1) ->
         read_number_io rest1 = (Some action2, rest2) ->
         Z.land action2 3 = Action_value SourceCopy ->
         read_number_io rest2 = (Some data2, rest3) ->
         let length2 := Z.shiftr action2 2 + 1 in
         let base2 :=
           source_relative_offset st + delta data + length_ + delta data2 in
         exists st1 st2,
           step source st = Next st1
           /\ step source st1 = Next st2
           /\ target st2
              = Py.setslice (target st1) (o + length_) (o + length_ + length2)
                  (Py.getslice source (Some base2) (Some (base2 + length2)))
           /\ source_relative_offset st2 = base2 + length2).
Proof.
  intros Ha length_ o delta.
  assert (forall d, delta d = signed_delta d) as Hdelta
    by (intros; symmetry; apply signed_delta_sign_magnitude).
  repeat split.
  - intros data rest' Hc Hd base. subst base. rewrite Hdelta.
    apply (step_source_copy source st action rest Ha data rest' Hc Hd).
  - revert H1.
    rewrite (step_target_copy source st action rest Ha data rest' H H0).
    rewrite Hdelta. fold length_ o.
    destruct target_copy as [[[t o'] tro']|] eqn:E; [|discriminate].
    intros H1. injection H1 as <-. cbn [target].
    destruct (target_copy_offsets _ _ _ _ _ _ _ E) as (-> & -> & _).
    pose proof (action_length_pos _ _ _ Ha). fold length_ in H1.
    rewrite Z2Nat.id by lia. reflexivity.
  - revert H1.
    rewrite (step_target_copy source st action rest Ha data rest' H H0).
    fold length_ o.
    destruct target_copy as [[[t o'] tro']|] eqn:E; [|discriminate].
    intros H1. injection H1 as <-. cbn [output_offset].
    destruct (target_copy_offsets _ _ _ _ _ _ _ E) as (-> & -> & _).
    pose proof (action_length_pos _ _ _ Ha). fold length_ in H1.
    rewrite Z2Nat.id by lia. reflexivity.
  - revert H1.
    rewrite (step_target_copy source st action rest Ha data rest' H H0).
    rewrite Hdelta. fold length_ o.
    destruct target_copy as [[[t o'] tro']|] eqn:E; [|discriminate].
    intros H1. injection H1 as <-. cbn [target_relative_offset].
    destruct (target_copy_offsets _ _ _ _ _ _ _ E) as (-> & -> & _).
    pose proof (action_length_pos _ _ _ Ha). fold length_ in H1.
    rewrite Z2Nat.id by lia. reflexivity.
  - revert H1.
    rewrite (step_target_copy source st action rest Ha data rest' H H0).
    destruct target_copy as [[[t o'] tro']|] eqn:E; [|discriminate].
    intros H1. injection H1 as <-. reflexivity.
  - apply (step_other_cursor source st st' action rest Ha H).
  - apply (step_other_cursor source st st' action rest Ha H).
  - intros data rest1 action2 rest2 data2 rest3 Hc Hd Ha2 Hc2 Hd2 length2 base2.
    pose proof (step_source_copy source st action rest Ha data rest1 Hc Hd)
      as Hs1.
    cbv zeta in Hs1.
    eexists. eexists. split; [exact Hs1|].
    match type of Hs1 with _ = Next ?s => set (st1 := s) in * end.
    pose proof (step_source_copy source st1 action2 rest2 Ha2 data2 rest3 Hc2 Hd2)
      as Hs2.
    cbv zeta in Hs2.
    split; [exact Hs2|].
    subst st1 base2. cbn [target output_offset source_relative_offset].
    rewrite !Hdelta. split; reflexivity.
Qed.

Lemma copy_cursors_persist_witness :
  (exists st1 st2,
      step source_8 after_first_copy = Next st1
      /\ step source_8 st1 = Next st2
      /\ target st2
         = Py.setslice (target st1) (2 + 2) (2 + 2 + 2)
             (Py.getslice source_8 (Some (6 + -3 + 2 + 1))
                          (Some (6 + -3 + 2 + 1 + 2)))
      /\ source_relative_offset st2 = 6 + -3 + 2 + 1 + 2)
  /\ step source_8 after_first_copy
     = Next {| target := [x0e; x0f; x0d; x0e; x00; x00];
               stream := [x86; x82];
               output_offset := 4;
               source_relative_offset := 5;
               target_relative_offset := 0 |}
  /\ (exists st', step [] (after_one_byte x80) = Next st'
                  /\ target_relative_offset st' = 0 + 0 + 5
                  /\ source_relative_offset st' = 0)
  /\ (exists st', step [] (initial_state fill_zero 6) = Next st'
                  /\ source_relative_offset st' = 0
                  /\ target_relative_offset st' = 0).
Proof.
  split; [|split; [|split]].
  - refine (proj2 (proj2 (proj2
              (copy_cursors_persist source_8 after_first_copy 6
                 [x87; x86; x82] _)))
              7 [x86; x82] 6 [x82] 2 [] _ _ _ _ _);
      reflexivity.
  - refine (proj1 (copy_cursors_persist source_8 after_first_copy 6
                     [x87; x86; x82] _)
              7 [x86; x82] _ _);
      reflexivity.
  - destruct (step [] (after_one_byte x80)) as [|st'|e] eqn:Hstep;
      [discriminate | | discriminate].
    exists st'. split; [reflexivity|].
    refine (proj2 (proj2 (proj1 (proj2
              (copy_cursors_persist [] (after_one_byte x80) 19 [x80] _))
              0 [] st' _ _ Hstep)));
      reflexivity.
  - destruct (step [] (initial_state fill_zero 6)) as [|st'|e] eqn:Hstep;
      [discriminate | | discriminate].
    exists st'. split; [reflexivity|].
    destruct (proj1 (proj2 (proj2
                (copy_cursors_persist [] (initial_state fill_zero 6) 1
                   [x41; x93; x80] eq_refl)))
                st' Hstep) as [Hs Ht].
    split; [apply Hs | apply Ht]; discriminate.
Defined.

(** The run of [three_copies]: the first turn leaves the source cursor at
    6 with [output_offset] at 2, the second reads at 3 and the third at 6,
    while [output_offset] is 2 and then 4. *)
Example three_copies_run :
  step source_8 (initial_state three_copies 6) = Next after_first_copy
  /\ patch_rom three_copies source_8
     = Ok [x0e; x0f; x0d; x0e; x10; x11].
Proof.
  split; vm_compute; reflexivity.
Qed.

(* ------------------------------------------------------------------ *)
(** ** TargetCopy, byte by byte *)

Lemma index_in_range (n : Z) (j : nat) :
  Z.of_nat j < n -> Py.index n (Z.of_nat j) = Some j.
Proof.
  intros H. unfold Py.index. cbv zeta.
  assert ((Z.of_nat j <? 0) = false) as E0 by (apply Z.ltb_ge; lia).
  assert ((n <=? Z.of_nat j) = false) as E1 by (apply Z.leb_gt; lia).
  rewrite E0. cbv iota. rewrite E0, E1.
  cbn [orb]. rewrite Nat2Z.id. reflexivity.
Qed.

Lemma getitem_in_range {A} (l : list A) (j : nat) :
  (j < length l)%nat -> Py.getitem l (Z.of_nat j) = nth_error l j.
Proof.
  intros H. unfold Py.getitem, len.
  rewrite index_in_range by lia. reflexivity.
Qed.

Lemma setitem_in_range {A} (l : list A) (j : nat) (v : A) :
  (j < length l)%nat ->
  Py.setitem l (Z.of_nat j) v = Some (firstn j l ++ v :: skipn (S j) l).
Proof.
  intros H. unfold Py.setitem, len.
  rewrite index_in_range by lia. reflexivity.
Qed.

(** A subscript at or after the end of the buffer raises [IndexError]. *)
Lemma index_past_end (n i : Z) : 0 <= i -> n <= i -> Py.index n i = None.
Proof.
  intros H0 H. unfold Py.index. cbv zeta.
  assert ((i <? 0) = false) as E0 by (apply Z.ltb_ge; lia).
  assert ((n <=? i) = true) as E1 by (apply Z.leb_le; lia).
  rewrite E0. cbv iota. rewrite E0, E1. reflexivity.
Qed.

(** With the read cursor one before the write cursor, the loop repeats the
    byte before the write cursor: each byte it writes is the byte it reads
    next. *)
Lemma target_copy_fill (n : nat) :
  forall (t : bytes) (j : nat) (v : byte),
    nth_error t j = Some v ->
    (S j + n <= length t)%nat ->
    target_copy n t (Z.of_nat (S j)) (Z.of_nat j)
    = Some (firstn (S j) t ++ repeat v n ++ skipn (S j + n) t,
            Z.of_nat (S j) + Z.of_nat n, Z.of_nat j + Z.of_nat n).
Proof.
  induction n as [|n IH]; intros t j v Hv Hlen.
  - cbn [target_copy repeat app]. rewrite Nat.add_0_r, firstn_skipn.
    rewrite !Z.add_0_r. reflexivity.
  - cbn [target_copy].
    rewrite getitem_in_range by lia. rewrite Hv.
    rewrite setitem_in_range by lia.
    set (t' := firstn (S j) t ++ v :: skipn (S (S j)) t).
    assert (length (firstn (S j) t) = S j) as Hpre
      by (rewrite length_firstn; lia).
    assert (length t' = length t) as Hlen'.
    { unfold t'. rewrite length_app, Hpre. cbn [length].
      rewrite length_skipn. lia. }
    assert (nth_error t' (S j) = Some v) as Hv'.
    { unfold t'. rewrite nth_error_app2 by lia.
      rewrite Hpre, Nat.sub_diag. reflexivity. }
    replace (Z.of_nat (S j) + 1) with (Z.of_nat (S (S j))) by lia.
    replace (Z.of_nat j + 1) with (Z.of_nat (S j)) by lia.
    rewrite (IH t' (S j) v Hv') by lia.
    f_equal. f_equal; [f_equal|]; try lia.
    assert (firstn (S (S j)) t' = firstn (S j) t ++ [v]) as ->.
    { unfold t'. rewrite <- Hpre at 1.
      change (S (length (firstn (S j) t)))
        with (1 + length (firstn (S j) t))%nat.
      rewrite Nat.add_comm, firstn_app_2. reflexivity. }
    assert (skipn (S (S j) + n) t' = skipn (S j + S n) t) as ->.
    { unfold t'. rewrite skipn_app, Hpre.
      rewrite skipn_all2 by lia.
      replace (S (S j) + n - S j)%nat with (S n) by lia.
      rewrite app_nil_l, skipn_cons, skipn_skipn. f_equal. lia. }
    rewrite <- app_assoc. reflexivity.
Qed.

(** C2 (amended): a TargetCopy whose delta leaves the target cursor one
    before [output_offset] fills its [length] bytes with the byte before
    [output_offset], the buffer being long enough: every byte written is
    read back for the next one.  After one byte [x41] written at the start
    of a run the cursor is 0, so this is the TargetCopy with delta 0. *)
Theorem target_copy_repeats_previous_byte
  (source : bytes) (st : RunState) (action data : Z) (rest rest' : bytes)
  (v : byte) :
  read_number_io (stream st) = (Some action, rest) ->
  Z.land action 3 = Action_value TargetCopy ->
  read_number_io rest = (Some data, rest') ->
  let length_ := Z.shiftr action 2 + 1 in
  let o := output_offset st in
  0 < o ->
  o + length_ <= len (target st) ->
  target_relative_offset st + signed_delta data = o - 1 ->
  Py.getitem (target st) (o - 1) = Some v ->
  step source st
  = Next {| target := firstn (Z.to_nat o) (target st)
                      ++ repeat v (Z.to_nat length_)
                      ++ skipn (Z.to_nat (o + length_)) (target st);
            stream := rest';
            output_offset := o + length_;
            source_relative_offset := source_relative_offset st;
            target_relative_offset := o - 1 + length_ |}.
Proof.
  intros Ha Hc Hd length_ o Ho Hlen Hcur Hv.
  rewrite (step_target_copy source st action rest Ha data rest' Hc Hd).
  fold length_ o. rewrite Hcur.
  pose proof (action_length_pos _ _ _ Ha) as HL. fold length_ in HL.
  unfold len in Hlen.
  set (j := Z.to_nat (o - 1)).
  assert (o - 1 = Z.of_nat j) as Ej by (unfold j; lia).
  assert (o = Z.of_nat (S j)) as Eo by lia.
  rewrite Ej in Hv |- *. rewrite getitem_in_range in Hv by lia.
  rewrite Eo at 1.
  rewrite (target_copy_fill (Z.to_nat length_) (target st) j v Hv) by lia.
  replace (Z.to_nat o) with (S j) by lia.
  replace (Z.to_nat (o + length_)) with (S j + Z.to_nat length_)%nat by lia.
  f_equal. f_equal; lia.
Qed.

Lemma target_copy_repeats_previous_byte_witness :
  step [] (after_one_byte x80)
  = Next {| target := [x41; x41; x41; x41; x41; x41];
            stream := [];
            output_offset := 6;
            source_relative_offset := 0;
            target_relative_offset := 5 |}.
Proof.
  refine (target_copy_repeats_previous_byte [] (after_one_byte x80)
            19 0 [x80] [] x41 _ _ _ _ _ _ _).
  - reflexivity.
  - reflexivity.
  - reflexivity.
  - reflexivity.
  - vm_compute. discriminate.
  - reflexivity.
  - reflexivity.
Defined.

(** C2 as stated fails: one byte [x41] written at the start of a run, then
    TargetCopy of length 5 with delta -1.  The target cursor was 0, so the
    delta makes it -1, which is the last byte of the buffer for Python, and
    the six bytes are not six times [x41]. *)
Lemma target_copy_delta_minus_one_counterexample :
  BPSPatch_init fill_minus_one_patch = Ok fill_minus_one
  /\ step [] (initial_state fill_minus_one 6) = Next (after_one_byte x83)
  /\ read_number_io (stream (after_one_byte x83)) = (Some 19, [x83])
  /\ Z.land 19 3 = Action_value TargetCopy
  /\ Z.shiftr 19 2 + 1 = 5
  /\ fst (read_number_io [x83]) = Some 3
  /\ signed_delta 3 = -1
  /\ step [] (after_one_byte x83)
     = Next {| target := [x41; x00; x41; x00; x41; x00];
               stream := [];
               output_offset := 6;
               source_relative_offset := 0;
               target_relative_offset := 4 |}
  /\ patch_rom fill_minus_one [] = Ok [x41; x00; x41; x00; x41; x00]
  /\ patch_rom fill_minus_one [] <> Ok [x41; x41; x41; x41; x41; x41].
Proof.
  repeat split; try (vm_compute; reflexivity).
  vm_compute. discriminate.
Qed.

(** With delta 0 the same patch gives the six bytes. *)
Example fill_zero_run :
  patch_rom fill_zero [] = Ok [x41; x41; x41; x41; x41; x41].
Proof. vm_compute. reflexivity. Qed.

(* ------------------------------------------------------------------ *)
(** ** Reads past the end of the source and of the action stream *)

(** A slice that starts at a position from the front holds the bytes
    there are from that position, [n] at most. *)
Lemma getslice_from_front {A} (l : list A) (a n : Z) :
  0 <= a -> 0 <= n ->
  Py.getslice l (Some a) (Some (a + n))
  = firstn (Z.to_nat n) (skipn (Z.to_nat a) l).
Proof.
  intros Ha Hn. unfold Py.getslice, Py.bound, Py.adjust_index, len.
  assert ((a <? 0) = false) as -> by (apply Z.ltb_ge; lia).
  assert ((a + n <? 0) = false) as -> by (apply Z.ltb_ge; lia).
  destruct (Z_le_gt_dec a (Z.of_nat (length l))) as [Hle|Hgt].
  - rewrite (Z.min_l a) by lia.
    destruct (Z_le_gt_dec (a + n) (Z.of_nat (length l))) as [Hle2|Hgt2].
    + rewrite Z.min_l by lia. f_equal. lia.
    + rewrite Z.min_r by lia.
      rewrite !firstn_all2; [reflexivity | |];
        rewrite length_skipn; lia.
  - rewrite !Z.min_r by lia. rewrite Z.sub_diag. cbn [Z.to_nat firstn].
    rewrite (skipn_all2 (n := Z.to_nat a)) by lia.
    rewrite firstn_nil. reflexivity.
Qed.

(** A slice whose two bounds are negative counts both from the end. *)
Lemma getslice_from_back {A} (l : list A) (a n : Z) :
  - len l <= a -> 0 <= n -> a + n < 0 ->
  Py.getslice l (Some a) (Some (a + n))
  = firstn (Z.to_nat n) (skipn (Z.to_nat (len l + a)) l).
Proof.
  intros Ha Hn Hneg. unfold Py.getslice, Py.bound, Py.adjust_index.
  assert ((a <? 0) = true) as -> by (apply Z.ltb_lt; lia).
  assert ((a + n <? 0) = true) as -> by (apply Z.ltb_lt; lia).
  rewrite !Z.max_r by lia. f_equal; f_equal; lia.
Qed.

Lemma length_firstn_skipn {A} (l : list A) (a n : Z) :
  0 <= a -> 0 <= n ->
  len (firstn (Z.to_nat n) (skipn (Z.to_nat a) l))
  = Z.min n (Z.max 0 (len l - a)).
Proof.
  intros Ha Hn. unfold len. rewrite length_firstn, length_skipn. lia.
Qed.

(** C3 (amended): an instruction that reads past the end of the source or
    of the action stream does not fail for that.  SourceRead copies the
    bytes that the source has from [output_offset] on, and a TargetRead
    whose length is at most [sys.maxsize] the bytes that are left in the
    stream, in both cases fewer than [length] when the end comes first;
    SourceCopy copies the slice of the source at its cursor, which for a
    negative cursor is counted from the end of the source.  The turn
    completes in each of these cases.  A TargetRead whose length is above
    [sys.maxsize] raises [OverflowError], whatever the stream holds. *)
Theorem reads_past_the_end_are_clipped
  (source : bytes) (st : RunState) (action : Z) (rest : bytes) :
  read_number_io (stream st) = (Some action, rest) ->
  0 <= output_offset st ->
  let length_ := Z.shiftr action 2 + 1 in
  let o := output_offset st in
  (Z.land action 3 = Action_value SourceRead ->
   let got := firstn (Z.to_nat length_) (skipn (Z.to_nat o) source) in
   exists st',
     step source st = Next st'
     /\ target st' = Py.setslice (target st) o (o + length_) got
     /\ len got = Z.min length_ (Z.max 0 (len source - o))
     /\ (len source < o + length_ -> len got < length_))
  /\ (Z.land action 3 = Action_value TargetRead ->
      length_ <= Py.maxsize ->
      let got := firstn (Z.to_nat length_) rest in
      exists st',
        step source st = Next st'
        /\ target st' = Py.setslice (target st) o (o + length_) got
        /\ stream st' = skipn (Z.to_nat length_) rest
        /\ len got = Z.min length_ (len rest)
        /\ (len rest < length_ -> got = rest /\ stream st' = []))
  /\ (Z.land action 3 = Action_value SourceCopy ->
      forall data rest',
        read_number_io rest = (Some data, rest') ->
        let sro := source_relative_offset st + signed_delta data in
        let got := Py.getslice source (Some sro) (Some (sro + length_)) in
        exists st',
          step source st = Next st'
          /\ target st' = Py.setslice (target st) o (o + length_) got
          /\ (0 <= sro ->
              got = firstn (Z.to_nat length_) (skipn (Z.to_nat sro) source)
              /\ len got = Z.min length_ (Z.max 0 (len source - sro)))
          /\ (- len source <= sro -> sro + length_ < 0 ->
              got = firstn (Z.to_nat length_)
                      (skipn (Z.to_nat (len source + sro)) source)))
  /\ (Z.land action 3 = Action_value TargetRead ->
      Py.maxsize < length_ ->
      step source st = Fault OverflowError).
Proof.
  intros Ha Ho length_ o.
  pose proof (action_length_pos _ _ _ Ha) as HL. fold length_ in HL.
  split; [|split; [|split]].
  - intros Hc got.
    rewrite (step_source_read source st action rest Ha Hc).
    fold length_ o. rewrite (getslice_from_front source o length_) by lia.
    fold got. eexists. split; [reflexivity|]. cbn [target].
    assert (len got = Z.min length_ (Z.max 0 (len source - o))) as Hlen
      by (apply length_firstn_skipn; lia).
    repeat split; [exact Hlen | lia].
  - intros Hc Hmax got.
    rewrite (step_target_read source st action rest Ha Hc Hmax).
    fold length_ o got. eexists. split; [reflexivity|].
    cbn [target stream].
    assert (len got = Z.min length_ (len rest)) as Hlen
      by (unfold got, len; rewrite length_firstn; lia).
    repeat split; try exact Hlen.
    + unfold got. apply firstn_all2. unfold len in H. lia.
    + apply skipn_all2. unfold len in H. lia.
  - intros Hc data rest' Hd sro got.
    rewrite (step_source_copy source st action rest Ha data rest' Hc Hd).
    fold length_ o sro got. eexists. split; [reflexivity|].
    cbn [target]. repeat split.
    + unfold got. apply getslice_from_front; lia.
    + unfold got. rewrite getslice_from_front by lia.
      apply length_firstn_skipn; lia.
    + intros Hlo Hhi. unfold got. apply getslice_from_back; lia.
  - intros Hc Hmax.
    apply (step_target_read_overflow source st action rest Ha Hc Hmax).
Qed.

Lemma reads_past_the_end_are_clipped_witness :
  (exists st',
      step [x01; x02] (initial_state read_past_source 4) = Next st'
      /\ target st' = [x01; x02])
  /\ (exists st',
         step [] (initial_state read_past_stream 4) = Next st'
         /\ target st' = [x41] /\ stream st' = [])
  /\ (exists st',
         step source_1234 (initial_state copy_before_source 2) = Next st'
         /\ target st' = [x02; x03])
  /\ step [] (initial_state huge_read 1) = Fault OverflowError.
Proof.
  split; [|split; [|split]].
  - destruct (proj1 (reads_past_the_end_are_clipped [x01; x02]
                       (initial_state read_past_source 4) 12 []
                       eq_refl (Z.le_refl 0))
                    eq_refl)
      as (st' & Hstep & Htarget & _).
    exists st'. split; [exact Hstep|]. rewrite Htarget. reflexivity.
  - destruct (proj1 (proj2 (reads_past_the_end_are_clipped []
                              (initial_state read_past_stream 4) 13 [x41]
                              eq_refl (Z.le_refl 0)))
                    eq_refl ltac:(vm_compute; discriminate))
      as (st' & Hstep & Htarget & Hstream & _).
    exists st'. split; [exact Hstep|].
    rewrite Htarget, Hstream. split; reflexivity.
  - destruct (proj1 (proj2 (proj2
                (reads_past_the_end_are_clipped source_1234
                   (initial_state copy_before_source 2) 6 [x87]
                   eq_refl (Z.le_refl 0))))
                eq_refl 7 [] eq_refl)
      as (st' & Hstep & Htarget & _).
    exists st'. split; [exact Hstep|]. rewrite Htarget. reflexivity.
  - refine (proj2 (proj2 (proj2
              (reads_past_the_end_are_clipped []
                 (initial_state huge_read 1) 1180664245694079451265 [x41]
                 eq_refl (Z.le_refl 0))))
              _ _).
    + reflexivity.
    + reflexivity.
Defined.

(** C3 as stated fails.  A SourceRead of length 4 on a source of two bytes
    copies the two bytes; a TargetRead of length 4 with one byte left in
    the stream copies that byte; a SourceCopy of length 2 with the cursor
    at -3 copies the second and third of four source bytes.  No turn
    fails, and [patch_rom] returns. *)
Lemma read_past_end_counterexample :
  (BPSPatch_init read_past_source_patch = Ok read_past_source
   /\ read_number_io (actions read_past_source) = (Some 12, [])
   /\ Z.land 12 3 = Action_value SourceRead
   /\ Z.shiftr 12 2 + 1 = 4
   /\ patch_rom read_past_source [x01; x02] = Ok [x01; x02])
  /\ (BPSPatch_init read_past_stream_patch = Ok read_past_stream
      /\ read_number_io (actions read_past_stream) = (Some 13, [x41])
      /\ Z.land 13 3 = Action_value TargetRead
      /\ Z.shiftr 13 2 + 1 = 4
      /\ patch_rom read_past_stream [] = Ok [x41])
  /\ (BPSPatch_init copy_before_source_patch = Ok copy_before_source
      /\ read_number_io (actions copy_before_source) = (Some 6, [x87])
      /\ Z.land 6 3 = Action_value SourceCopy
      /\ fst (read_number_io [x87]) = Some 7
      /\ signed_delta 7 = -3
      /\ patch_rom copy_before_source source_1234 = Ok [x02; x03]).
Proof.
  repeat split; vm_compute; reflexivity.
Qed.

(* ------------------------------------------------------------------ *)
(** ** The write cursor *)

(** A completed turn has decoded an action. *)
Lemma step_next_decodes source st st' :
  step source st = Next st' ->
  exists action rest, read_number_io (stream st) = (Some action, rest).
Proof.
  unfold step.
  destruct (read_number_io (stream st)) as [[action|] rest];
    [eauto | discriminate].
Qed.

(** A completed turn adds the length of its instruction to
    [output_offset]. *)
Lemma step_output_offset source st st' action rest :
  read_number_io (stream st) = (Some action, rest) ->
  step source st = Next st' ->
  output_offset st' = output_offset st + (Z.shiftr action 2 + 1).
Proof.
  intros Ha Hstep.
  pose proof (action_length_pos _ _ _ Ha) as HL.
  destruct (command_cases action) as [Hc|[Hc|[Hc|Hc]]].
  - rewrite (step_source_read source st action rest Ha Hc) in Hstep.
    injection Hstep as <-. reflexivity.
  - destruct (Z_le_gt_dec (Z.shiftr action 2 + 1) Py.maxsize) as [Hmax|Hmax];
      [|rewrite (step_target_read_overflow source st action rest Ha Hc)
          in Hstep by lia; discriminate].
    rewrite (step_target_read source st action rest Ha Hc Hmax) in Hstep.
    injection Hstep as <-. reflexivity.
  - destruct (read_number_io rest) as [[data|] rest'] eqn:Hd.
    + rewrite (step_source_copy source st action rest Ha data rest' Hc Hd)
        in Hstep.
      injection Hstep as <-. reflexivity.
    + rewrite (step_copy_no_delta source st action rest Ha rest'
                 (or_introl Hc) Hd) in Hstep.
      discriminate.
  - destruct (read_number_io rest) as [[data|] rest'] eqn:Hd.
    + rewrite (step_target_copy source st action rest Ha data rest' Hc Hd)
        in Hstep.
      destruct target_copy as [[[t o'] tro']|] eqn:E; [|discriminate].
      injection Hstep as <-. cbn [output_offset].
      destruct (target_copy_offsets _ _ _ _ _ _ _ E) as (-> & _ & _). lia.
    + rewrite (step_copy_no_delta source st action rest Ha rest'
                 (or_intror Hc) Hd) in Hstep.
      discriminate.
Qed.

Lemma reaches_output_offset source st st' :
  reaches source st st' -> output_offset st <= output_offset st'.
Proof.
  induction 1 as [st|st st1 st2 Hstep _ IH].
  - lia.
  - destruct (step_next_decodes source st st1 Hstep) as (action & rest & Ha).
    pose proof (step_output_offset source st st1 action rest Ha Hstep).
    pose proof (action_length_pos _ _ _ Ha). lia.
Qed.

(** The [for] loop of TargetCopy stops with [IndexError] when it is to
    write after the end of the buffer. *)
Lemma target_copy_overflow (n : nat) :
  forall (t : bytes) (o tro : Z),
    0 <= o -> (0 < n)%nat -> len t < o + Z.of_nat n ->
    target_copy n t o tro = None.
Proof.
  induction n as [|n IH]; intros t o tro Ho Hn Hlen; [lia|].
  cbn [target_copy].
  destruct (Py.getitem t tro) as [v|]; [|reflexivity].
  destruct (Z_lt_le_dec o (len t)) as [Hin|Hout].
  - replace o with (Z.of_nat (Z.to_nat o)) at 1 by lia.
    rewrite setitem_in_range by (unfold len in Hin; lia).
    apply IH; [lia | lia |].
    unfold len in *. rewrite length_app, length_firstn. cbn [length].
    rewrite length_skipn. lia.
  - unfold Py.setitem. rewrite index_past_end by lia. reflexivity.
Qed.

(** C4 (amended): every completed turn adds the length of its
    instruction, which is at least one, to [output_offset], so the cursor
    only grows along a run.  It is not bounded by the target size: a
    TargetCopy stops when its writes would go past the end of the buffer,
    with [IndexError], and a TargetRead when its length is above
    [sys.maxsize], with [OverflowError]; a SourceRead, a SourceCopy with
    its delta, and a TargetRead of a length up to [sys.maxsize] never
    fail. *)
Theorem output_offset_increases (source : bytes) (st : RunState) :
  (forall st' action rest,
      read_number_io (stream st) = (Some action, rest) ->
      step source st = Next st' ->
      output_offset st' = output_offset st + (Z.shiftr action 2 + 1)
      /\ output_offset st < output_offset st')
  /\ (forall st', reaches source st st' ->
                  output_offset st <= output_offset st')
  /\ (forall action rest data rest',
         read_number_io (stream st) = (Some action, rest) ->
         Z.land action 3 = Action_value TargetCopy ->
         read_number_io rest = (Some data, rest') ->
         0 <= output_offset st ->
         len (target st) < output_offset st + (Z.shiftr action 2 + 1) ->
         step source st = Fault IndexError)
  /\ (forall action rest,
         read_number_io (stream st) = (Some action, rest) ->
         Z.land action 3 = Action_value SourceRead
         \/ (Z.land action 3 = Action_value TargetRead
             /\ Z.shiftr action 2 + 1 <= Py.maxsize)
         \/ (Z.land action 3 = Action_value SourceCopy
             /\ fst (read_number_io rest) <> None) ->
         exists st', step source st = Next st')
  /\ (forall action rest,
         read_number_io (stream st) = (Some action, rest) ->
         Z.land action 3 = Action_value TargetRead ->
         Py.maxsize < Z.shiftr action 2 + 1 ->
         step source st = Fault OverflowError).
Proof.
  split; [|split; [|split; [|split]]].
  - intros st' action rest Ha Hstep.
    pose proof (step_output_offset source st st' action rest Ha Hstep).
    pose proof (action_length_pos _ _ _ Ha). lia.
  - apply reaches_output_offset.
  - intros action rest data rest' Ha Hc Hd Ho Hlen.
    rewrite (step_target_copy source st action rest Ha data rest' Hc Hd).
    pose proof (action_length_pos _ _ _ Ha).
    rewrite target_copy_overflow by lia. reflexivity.
  - intros action rest Ha [Hc|[[Hc Hmax]|[Hc Hd]]].
    + rewrite (step_source_read source st action rest Ha Hc). eauto.
    + rewrite (step_target_read source st action rest Ha Hc Hmax). eauto.
    + destruct (read_number_io rest) as [[data|] rest'] eqn:E;
        [|contradiction].
      rewrite (step_source_copy source st action rest Ha data rest' Hc E).
      eauto.
  - intros action rest Ha Hc Hmax.
    apply (step_target_read_overflow source st action rest Ha Hc Hmax).
Qed.

Lemma output_offset_increases_witness :
  let st' := {| target := [x01; x02];
                stream := [];
                output_offset := 2;
                source_relative_offset := 0;
                target_relative_offset := 0 |} in
  step [x01; x02] (initial_state write_past_target 1) = Next st'
  /\ output_offset st' = 0 + (Z.shiftr 4 2 + 1)
  /\ 0 < output_offset st'
  /\ step [] (initial_state copy_past_target 2) = Fault IndexError
  /\ (exists st1, step [] (initial_state read_past_stream 4) = Next st1)
  /\ step [] (initial_state huge_read 1) = Fault OverflowError.
Proof.
  intros st'.
  assert (step [x01; x02] (initial_state write_past_target 1) = Next st')
    as Hstep by reflexivity.
  split; [exact Hstep|].
  destruct (proj1 (output_offset_increases [x01; x02]
                     (initial_state write_past_target 1))
              st' 4 [] eq_refl Hstep) as [Heq Hlt].
  split; [exact Heq|]. split; [exact Hlt|]. split; [|split].
  - refine (proj1 (proj2 (proj2 (output_offset_increases []
                                   (initial_state copy_past_target 2))))
              19 [x80] 0 [] _ _ _ _ _).
    + reflexivity.
    + reflexivity.
    + reflexivity.
    + apply Z.le_refl.
    + reflexivity.
  - refine (proj1 (proj2 (proj2 (proj2
              (output_offset_increases []
                 (initial_state read_past_stream 4)))))
              13 [x41] eq_refl _).
    right. left. split; [reflexivity|]. vm_compute. discriminate.
  - refine (proj2 (proj2 (proj2 (proj2
              (output_offset_increases []
                 (initial_state huge_read 1)))))
              1180664245694079451265 [x41] eq_refl _ _).
    + reflexivity.
    + reflexivity.
Defined.

(** C4 as stated fails: a SourceRead of length 2 into a target of one byte
    does not fail, the buffer grows to two bytes and [output_offset] ends
    at 2, above the target size, and [patch_rom] returns. *)
Lemma output_offset_bound_counterexample :
  BPSPatch_init write_past_target_patch = Ok write_past_target
  /\ target_size write_past_target = Some 1
  /\ run_loop [x01; x02] (initial_state write_past_target 1)
     = Ok {| target := [x01; x02];
             stream := [];
             output_offset := 2;
             source_relative_offset := 0;
             target_relative_offset := 0 |}
  /\ 1 < 2
  /\ patch_rom write_past_target [x01; x02] = Ok [x01; x02].
Proof.
  repeat split; vm_compute; reflexivity.
Qed.

(* ------------------------------------------------------------------ *)
(** ** What [patch_rom] returns *)

Lemma setslice_same_length {A} (t v : list A) (o n : Z) :
  0 <= o -> 0 <= n -> o + n <= len t -> len v = n ->
  length (Py.setslice t o (o + n) v) = length t.
Proof.
  intros Ho Hn Hin Hv. unfold Py.setslice, Py.adjust_index.
  assert ((o <? 0) = false) as -> by (apply Z.ltb_ge; lia).
  assert ((o + n <? 0) = false) as -> by (apply Z.ltb_ge; lia).
  rewrite !length_app, length_firstn, length_skipn.
  unfold len in *. lia.
Qed.

(** A turn that stays inside its buffers keeps the length of the
    target. *)
Lemma step_in_bounds_length source st st' :
  0 <= output_offset st ->
  turn_in_bounds source st = true ->
  step source st = Next st' ->
  length (target st') = length (target st).
Proof.
  intros Ho Hb Hstep.
  destruct (step_next_decodes source st st' Hstep) as (action & rest & Ha).
  pose proof (action_length_pos _ _ _ Ha) as HL.
  unfold turn_in_bounds in Hb. rewrite Ha in Hb.
  apply andb_prop in Hb. destruct Hb as [Hw Hr].
  apply Z.leb_le in Hw.
  destruct (command_cases action) as [Hc|[Hc|[Hc|Hc]]];
    rewrite Hc in Hr; cbn [Action_value Z.eqb] in Hr.
  - rewrite (step_source_read source st action rest Ha Hc) in Hstep.
    injection Hstep as <-. cbn [target]. apply Z.leb_le in Hr.
    apply setslice_same_length; try lia.
    rewrite getslice_from_front, length_firstn_skipn by lia. lia.
  - destruct (Z_le_gt_dec (Z.shiftr action 2 + 1) Py.maxsize) as [Hmax|Hmax];
      [|rewrite (step_target_read_overflow source st action rest Ha Hc)
          in Hstep by lia; discriminate].
    rewrite (step_target_read source st action rest Ha Hc Hmax) in Hstep.
    injection Hstep as <-. cbn [target]. apply Z.leb_le in Hr.
    apply setslice_same_length; try lia.
    unfold len in *. rewrite length_firstn. lia.
  - destruct (read_number_io rest) as [[data|] rest'] eqn:Hd.
    + rewrite (step_source_copy source st action rest Ha data rest' Hc Hd)
        in Hstep.
      injection Hstep as <-. cbn [target].
      apply andb_prop in Hr. destruct Hr as [Hlo Hhi].
      apply Z.leb_le in Hlo, Hhi.
      apply setslice_same_length; try lia.
      rewrite getslice_from_front, length_firstn_skipn by lia. lia.
    + rewrite (step_copy_no_delta source st action rest Ha rest'
                 (or_introl Hc) Hd) in Hstep.
      discriminate.
  - destruct (read_number_io rest) as [[data|] rest'] eqn:Hd.
    + rewrite (step_target_copy source st action rest Ha data rest' Hc Hd)
        in Hstep.
      destruct target_copy as [[[t o'] tro']|] eqn:E; [|discriminate].
      injection Hstep as <-. cbn [target].
      apply (target_copy_offsets _ _ _ _ _ _ _ E).
    + rewrite (step_copy_no_delta source st action rest Ha rest'
                 (or_intror Hc) Hd) in Hstep.
      discriminate.
Qed.

Lemma reaches_in_bounds_length source st st' :
  reaches source st st' ->
  0 <= output_offset st ->
  (forall s, reaches source st s -> turn_in_bounds source s = true) ->
  length (target st') = length (target st).
Proof.
  induction 1 as [st|st st1 st2 Hstep Hreach IH]; intros Ho Hall.
  - reflexivity.
  - rewrite IH.
    + apply (step_in_bounds_length source st st1 Ho); [|exact Hstep].
      apply Hall. constructor.
    + pose proof (reaches_output_offset source st st1
                    (reaches_next source st st1 st1 Hstep
                       (reaches_refl source st1))).
      lia.
    + intros s Hs. apply Hall. econstructor; eassumption.
Qed.

(** What a successful [patch_rom] went through. *)
Lemma patch_rom_ok (self : BPSPatch) (source t : bytes) :
  patch_rom self source = Ok t ->
  source_size self = Some (len source)
  /\ Crc.crc32 source = source_checksum self
  /\ exists n st,
       target_size self = Some n
       /\ run_loop source (initial_state self n) = Ok st
       /\ target st = t
       /\ Crc.crc32 t = target_checksum self.
Proof.
  unfold patch_rom, initial_state.
  destruct (source_size self) as [ss|]; cbn [int_ne]; [|discriminate].
  destruct (len source =? ss) eqn:Es; cbn [negb]; [|discriminate].
  apply Z.eqb_eq in Es. subst ss.
  destruct (Crc.crc32 source =? source_checksum self) eqn:Ec; cbn [negb];
    [|discriminate].
  apply Z.eqb_eq in Ec.
  destruct (target_size self) as [n|]; [|discriminate].
  destruct (run_loop source _) as [st|e] eqn:Er; cbn [bind]; [|discriminate].
  destruct (Crc.crc32 (target st) =? target_checksum self) eqn:Et;
    cbn [negb]; [|discriminate].
  apply Z.eqb_eq in Et.
  intros H. injection H as <-.
  repeat split; try assumption.
  exists n, st. repeat split; assumption.
Qed.

(** C9 (amended): the buffer that [patch_rom] returns has the CRC32 that
    the container declares, and a buffer with another CRC32 is not
    returned: [InvalidPatch] is raised for it.  Its length is the target
    size when every turn of the run stayed inside its buffers; a slice
    assignment that reads or writes past an end changes the length of the
    buffer, and nothing compares it with the target size. *)
Theorem patch_rom_returns_checked_target (self : BPSPatch) (source : bytes) :
  (forall t, patch_rom self source = Ok t ->
             Crc.crc32 t = target_checksum self)
  /\ (forall n st,
         source_size self = Some (len source) ->
         Crc.crc32 source = source_checksum self ->
         target_size self = Some n ->
         run_loop source (initial_state self n) = Ok st ->
         Crc.crc32 (target st) <> target_checksum self ->
         patch_rom self source
         = Raise (InvalidPatch
                    (TargetChecksumMismatch (Crc.crc32 (target st))
                                            (target_checksum self))))
  /\ (forall t n,
         patch_rom self source = Ok t ->
         target_size self = Some n ->
         0 <= n ->
         (forall st, reaches source (initial_state self n) st ->
                     turn_in_bounds source st = true) ->
         len t = n).
Proof.
  split; [|split].
  - intros t H. apply patch_rom_ok in H.
    destruct H as (_ & _ & n & st & _ & _ & _ & H). exact H.
  - intros n st Hs Hc Ht Hr Hne.
    rewrite (patch_rom_checked self source n Hs Hc Ht), Hr. cbn [bind].
    destruct (Crc.crc32 (target st) =? target_checksum self) eqn:E.
    + apply Z.eqb_eq in E. contradiction.
    + reflexivity.
  - intros t n H Ht Hn Hall. apply patch_rom_ok in H.
    destruct H as (_ & _ & n' & st & Ht' & Hr & <- & _).
    rewrite Ht in Ht'. injection Ht' as <-.
    apply run_loop_ok in Hr. destruct Hr as [Hreach _].
    unfold len.
    rewrite (reaches_in_bounds_length source _ st Hreach (Z.le_refl 0) Hall).
    cbn [initial_state target]. unfold Py.bytearray.
    rewrite repeat_length. lia.
Qed.

Lemma patch_rom_returns_checked_target_witness :
  (Crc.crc32 source_1234
   = target_checksum identity
   /\ len source_1234 = 4)
  /\ patch_rom identity_bad_target source_1234
     = Raise (InvalidPatch (TargetChecksumMismatch 3057449933 1)).
Proof.
  pose (self := identity).
  assert (patch_rom self source_1234 = Ok source_1234) as Hrun
    by (vm_compute; reflexivity).
  split; [split|].
  - exact (proj1 (patch_rom_returns_checked_target self source_1234)
             source_1234 Hrun).
  - refine (proj2 (proj2 (patch_rom_returns_checked_target self source_1234))
              source_1234 4 Hrun eq_refl _ _).
    + discriminate.
    + intros st Hreach.
      inversion Hreach as [|s0 s1 s2 Hstep Hrest]; subst; [reflexivity|].
      vm_compute in Hstep. injection Hstep as <-.
      inversion Hrest as [|s0 s1 s2 Hstep2 _]; subst; [reflexivity|].
      vm_compute in Hstep2. discriminate.
  - refine (proj1 (proj2 (patch_rom_returns_checked_target
                            identity_bad_target source_1234))
              4 {| target := source_1234;
                   stream := [];
                   output_offset := 4;
                   source_relative_offset := 0;
                   target_relative_offset := 0 |} _ _ _ _ _).
    + reflexivity.
    + vm_compute. reflexivity.
    + reflexivity.
    + vm_compute. reflexivity.
    + vm_compute. discriminate.
Defined.

(** C9 as stated fails on the length: with a target size of 4, a
    SourceRead of length 4 on a source of two bytes leaves a buffer of two
    bytes, whose CRC32 is the declared one, and [patch_rom] returns it. *)
Lemma returned_length_counterexample :
  BPSPatch_init read_past_source_patch = Ok read_past_source
  /\ target_size read_past_source = Some 4
  /\ source_size read_past_source = Some (len [x01; x02])
  /\ Crc.crc32 [x01; x02] = source_checksum read_past_source
  /\ patch_rom read_past_source [x01; x02] = Ok [x01; x02]
  /\ len [x01; x02] <> 4.
Proof.
  repeat split; try (vm_compute; reflexivity).
  vm_compute. discriminate.
Qed.

(* ================================================================== *)
(** * Further properties of the code *)

(* ------------------------------------------------------------------ *)
(** ** [convert_uint] *)

Lemma len_cons {A} (x : A) (l : list A) : len (x :: l) = len l + 1.
Proof. unfold len. cbn [length]. lia. Qed.

Lemma pow256_succ (l : bytes) (x : byte) :
  256 ^ len (x :: l) = 256 * 256 ^ len l.
Proof.
  rewrite len_cons. rewrite Z.pow_add_r by (unfold len; lia). lia.
Qed.

(** X1: [convert_uint] reads its bytes as the digits of a number in base
    256, least significant first: its value is below [256 ^ len b], and
    the value of a concatenation is the value of the first part plus the
    value of the second shifted by the length of the first. *)
Theorem convert_uint_little_endian (a b : bytes) :
  0 <= convert_uint a < 256 ^ len a
  /\ convert_uint (a ++ b) = convert_uint a + 256 ^ len a * convert_uint b.
Proof.
  induction a as [|x a [IHr IHa]].
  - cbn [convert_uint app]. change (len (@nil byte)) with 0.
    split; [cbn; lia | rewrite Z.pow_0_r; lia].
  - cbn [convert_uint app]. rewrite pow256_succ, IHa.
    pose proof (byte_val_range x). split; [nia | ring].
Qed.

Lemma byte_val_inj (x y : byte) : byte_val x = byte_val y -> x = y.
Proof.
  intros H. rewrite <- (byte_of_val x), <- (byte_of_val y), H. reflexivity.
Qed.

Lemma convert_uint_range (b : bytes) : 0 <= convert_uint b < 256 ^ len b.
Proof.
  induction b as [|x b IH].
  - cbn. lia.
  - cbn [convert_uint]. rewrite pow256_succ.
    pose proof (byte_val_range x). nia.
Qed.

(** X2: two byte strings of the same length with the same [convert_uint]
    value are the same bytes, so a stored checksum determines its four
    bytes. *)
Theorem convert_uint_injective (a b : bytes) :
  length a = length b -> convert_uint a = convert_uint b -> a = b.
Proof.
  revert b. induction a as [|x a IH]; intros [|y b] Hlen Hval;
    try discriminate; [reflexivity|].
  cbn [convert_uint length] in *.
  pose proof (byte_val_range x). pose proof (byte_val_range y).
  assert (byte_val x = byte_val y /\ convert_uint a = convert_uint b)
    as [Hx Ha] by lia.
  apply byte_val_inj in Hx. subst y. f_equal. apply IH; [lia | exact Ha].
Qed.

Lemma convert_uint_injective_witness :
  [xcd; xfb] = firstn 2 [xcd; xfb; x3c; xb6].
Proof.
  apply (convert_uint_injective [xcd; xfb] (firstn 2 [xcd; xfb; x3c; xb6]));
    reflexivity.
Defined.

(* ------------------------------------------------------------------ *)
(** ** [read_number_io] *)

Lemma read_number_loop_none_iff (b : bytes) :
  forall data shift,
    fst (read_number_loop data shift b) = None
    <-> forallb (fun x => negb (terminal x)) b = true.
Proof.
  induction b as [|x b IH]; intros data shift; cbn [read_number_loop forallb].
  - split; reflexivity.
  - rewrite convert_uint_one. unfold terminal at 1.
    destruct (Z.land (byte_val x) 128 =? 0); cbn [negb andb].
    + apply IH.
    + cbn [fst]. split; discriminate.
Qed.

(** X3: [read_number_io] returns [None] exactly when no byte of the stream
    has its high bit set, the empty stream included, and it has then read
    the stream to its end. *)
Theorem read_number_io_none_iff (b : bytes) :
  (fst (read_number_io b) = None
   <-> forallb (fun x => negb (terminal x)) b = true)
  /\ (fst (read_number_io b) = None -> snd (read_number_io b) = []).
Proof.
  split.
  - apply read_number_loop_none_iff.
  - unfold read_number_io. intros H.
    destruct (read_number_loop 0 1 b) as [[v|] r] eqn:E; [discriminate|].
    apply (proj2 (read_number_loop_rest_le 0 1 b r)). exact E.
Qed.

Lemma read_number_io_none_iff_witness :
  fst (read_number_io [x0c; x01]) = None
  /\ snd (read_number_io [x0c; x01]) = [].
Proof.
  assert (fst (read_number_io [x0c; x01]) = None) as H.
  { apply (proj2 (proj1 (read_number_io_none_iff [x0c; x01]))).
    reflexivity. }
  split; [exact H|].
  exact (proj2 (read_number_io_none_iff [x0c; x01]) H).
Defined.

Lemma read_number_loop_split (b : bytes) :
  forall data shift v rest,
    read_number_loop data shift b = (Some v, rest) ->
    exists used last,
      b = used ++ last :: rest
      /\ terminal last = true
      /\ forallb (fun x => negb (terminal x)) used = true.
Proof.
  induction b as [|x b IH]; intros data shift v rest; cbn [read_number_loop].
  - discriminate.
  - rewrite convert_uint_one.
    destruct (Z.land (byte_val x) 128 =? 0) eqn:E.
    + intros H. apply IH in H. destruct H as (used & last & -> & Hl & Hu).
      exists (x :: used), last. repeat split; try assumption.
      cbn [forallb]. unfold terminal at 1. rewrite E, Hu. reflexivity.
    + intros H. injection H as _ <-.
      exists [], x. repeat split. unfold terminal. rewrite E. reflexivity.
Qed.

(** X4: when [read_number_io] returns a number, it has read the bytes up
    to and including the first one with the high bit set, and what it
    leaves is the rest of the stream, untouched. *)
Theorem read_number_io_reads_to_terminal (b : bytes) (v : Z) (rest : bytes) :
  read_number_io b = (Some v, rest) ->
  exists used last,
    b = used ++ last :: rest
    /\ terminal last = true
    /\ forallb (fun x => negb (terminal x)) used = true.
Proof.
  apply read_number_loop_split.
Qed.

Lemma read_number_io_reads_to_terminal_witness :
  exists used last,
    [x2c; x81; x41] = used ++ last :: [x41]
    /\ terminal last = true
    /\ forallb (fun x => negb (terminal x)) used = true.
Proof.
  apply (read_number_io_reads_to_terminal [x2c; x81; x41] 300 [x41]).
  reflexivity.
Defined.

Lemma read_number_loop_extend (b : bytes) :
  forall data shift v rest more,
    read_number_loop data shift b = (Some v, rest) ->
    read_number_loop data shift (b ++ more) = (Some v, rest ++ more).
Proof.
  induction b as [|x b IH]; intros data shift v rest more;
    cbn [read_number_loop app].
  - discriminate.
  - destruct (Z.land (convert_uint [x]) 128 =? 0).
    + apply IH.
    + intros H. injection H as <- <-. reflexivity.
Qed.

(** X5: the number [read_number_io] returns does not depend on what
    follows it in the stream: with more bytes appended, the same number is
    read and the appended bytes are left after the rest. *)
Theorem read_number_io_extend (b : bytes) (v : Z) (rest more : bytes) :
  read_number_io b = (Some v, rest) ->
  read_number_io (b ++ more) = (Some v, rest ++ more).
Proof.
  apply read_number_loop_extend.
Qed.

Lemma read_number_io_extend_witness :
  read_number_io ([x2c; x81] ++ [x41; x42]) = (Some 300, [] ++ [x41; x42]).
Proof.
  apply (read_number_io_extend [x2c; x81] 300 [] [x41; x42]).
  reflexivity.
Defined.

(** X6: the decoder is injective: two streams from which the same number
    is read started with the same bytes, that is, a number has one
    encoding only. *)
Theorem read_number_io_injective (b1 b2 r1 r2 : bytes) (n : Z) :
  read_number_io b1 = (Some n, r1) ->
  read_number_io b2 = (Some n, r2) ->
  exists used, b1 = used ++ r1 /\ b2 = used ++ r2.
Proof.
  intros H1 H2.
  apply encode_number_canonical in H1, H2.
  exists (encode_number n). split; assumption.
Qed.

Lemma read_number_io_injective_witness :
  exists used, [x2c; x81; x41] = used ++ [x41] /\ [x2c; x81] = used ++ [].
Proof.
  apply (read_number_io_injective [x2c; x81; x41] [x2c; x81] [x41] [] 300);
    reflexivity.
Defined.

(* ------------------------------------------------------------------ *)
(** ** The delta of a copy action *)

(** X7: the delta of a copy action is a sign and a magnitude: the even
    number [2 * m] is read as [m] and the odd number [2 * m + 1] as [- m],
    so that 0 and 1 are both a delta of zero. *)
Theorem signed_delta_sign_and_magnitude (m : Z) :
  signed_delta (2 * m) = m /\ signed_delta (2 * m + 1) = - m.
Proof.
  rewrite !signed_delta_sign_magnitude.
  rewrite Z.testbit_even_0, Z.testbit_odd_0.
  rewrite !Z.shiftr_div_pow2 by lia. change (2 ^ 1) with 2.
  assert (2 * m / 2 = m) as ->
    by (symmetry; apply (Z.div_unique_pos (2 * m) 2 m 0); lia).
  assert ((2 * m + 1) / 2 = m) as ->
    by (symmetry; apply (Z.div_unique_pos (2 * m + 1) 2 m 1); lia).
  split; lia.
Qed.

(* ------------------------------------------------------------------ *)
(** ** [BPSPatch.__init__]: what an accepted patch is *)

(** An accepted patch has passed the two checks. *)
Lemma init_ok_checked (patch : bytes) (p : BPSPatch) :
  BPSPatch_init patch = Ok p ->
  firstn 4 patch = MAGIC_HEADER
  /\ stored_patch_checksum patch = computed_patch_checksum patch.
Proof.
  intros H.
  destruct (list_eq_dec byte_eq_dec (firstn 4 patch) MAGIC_HEADER) as [Hh|Hh].
  - split; [exact Hh|].
    destruct (Z.eq_dec (stored_patch_checksum patch)
                       (computed_patch_checksum patch)) as [Hc|Hc];
      [exact Hc|].
    unfold BPSPatch_init in H. rewrite init_header_check, Hh in H.
    destruct (init_checksum_slices patch) as [E1 E2].
    rewrite E1, E2 in H.
    replace (bytes_eqb MAGIC_HEADER MAGIC_HEADER) with true in H
      by reflexivity.
    cbn [negb] in H.
    destruct (stored_patch_checksum patch =? computed_patch_checksum patch)
      eqn:E; [apply Z.eqb_eq in E; contradiction | discriminate].
  - unfold BPSPatch_init in H. rewrite init_header_check in H.
    destruct (bytes_eqb (firstn 4 patch) MAGIC_HEADER) eqn:E;
      [apply bytes_eqb_eq in E; contradiction | discriminate].
Qed.

Lemma getslice_length_le {A} (l : list A) (a b : Z) :
  a <= b -> b - a <= 4 -> a < 0 -> b < 0 ->
  len (Py.getslice l (Some a) (Some b)) <= 4.
Proof.
  intros Hab H4 Ha Hb. unfold Py.getslice, Py.bound, Py.adjust_index.
  assert ((a <? 0) = true) as -> by (apply Z.ltb_lt; lia).
  assert ((b <? 0) = true) as -> by (apply Z.ltb_lt; lia).
  unfold len at 1. rewrite length_firstn. lia.
Qed.

Lemma convert_uint_u32 (b : bytes) : len b <= 4 -> 0 <= convert_uint b < 2 ^ 32.
Proof.
  intros H. pose proof (convert_uint_range b) as [H0 H1].
  split; [exact H0|].
  apply Z.lt_le_trans with (1 := H1).
  change (2 ^ 32) with (256 ^ 4).
  apply Z.pow_le_mono_r; [lia | exact H].
Qed.

Lemma magic_is_not_a_patch :
  stored_patch_checksum MAGIC_HEADER <> computed_patch_checksum MAGIC_HEADER.
Proof. vm_compute. discriminate. Qed.

(** X8: a patch that [__init__] accepts starts with "BPS1", its last four
    bytes hold the CRC32 of the bytes before them, it has more than the
    four bytes of the header, and the two other checksums of the object are
    the numbers read from its bytes -12 to -8 and -8 to -4, each below
    [2 ^ 32]. *)
Theorem init_accepts_only_intact_patches (patch : bytes) (p : BPSPatch) :
  BPSPatch_init patch = Ok p ->
  firstn 4 patch = MAGIC_HEADER
  /\ stored_patch_checksum patch = computed_patch_checksum patch
  /\ patch_checksum p = stored_patch_checksum patch
  /\ (4 < length patch)%nat
  /\ source_checksum p
     = convert_uint (Py.getslice patch (Some (-12)) (Some (-8)))
  /\ target_checksum p
     = convert_uint (Py.getslice patch (Some (-8)) (Some (-4)))
  /\ 0 <= source_checksum p < 2 ^ 32
  /\ 0 <= target_checksum p < 2 ^ 32.
Proof.
  intros H.
  destruct (init_ok_checked patch p H) as [Hh Hc].
  rewrite (init_accepted patch Hh Hc) in H.
  destruct (read_number (skipn 4 patch)) as [ss r1].
  destruct (read_number r1) as [ts r2].
  destruct (read_number r2) as [ms r3].
  destruct (Utf8.decode _) as [text|]; [|discriminate].
  injection H as <-. cbn [patch_checksum source_checksum target_checksum].
  repeat split; try assumption; try reflexivity.
  - assert (length (firstn 4 patch) = 4%nat) as Hl by (rewrite Hh; reflexivity).
    rewrite length_firstn in Hl.
    destruct (Nat.eq_dec (length patch) 4) as [E4|]; [|lia].
    exfalso. apply magic_is_not_a_patch.
    rewrite <- Hh. rewrite firstn_all2 by lia. exact Hc.
  - apply convert_uint_u32, getslice_length_le; lia.
  - apply convert_uint_u32, getslice_length_le; lia.
  - apply convert_uint_u32, getslice_length_le; lia.
  - apply convert_uint_u32, getslice_length_le; lia.
Qed.

Lemma init_accepts_only_intact_patches_witness :
  firstn 4 identity_patch = MAGIC_HEADER
  /\ stored_patch_checksum identity_patch
     = computed_patch_checksum identity_patch
  /\ patch_checksum identity = stored_patch_checksum identity_patch
  /\ (4 < length identity_patch)%nat
  /\ source_checksum identity
     = convert_uint (Py.getslice identity_patch (Some (-12)) (Some (-8)))
  /\ target_checksum identity
     = convert_uint (Py.getslice identity_patch (Some (-8)) (Some (-4)))
  /\ 0 <= source_checksum identity < 2 ^ 32
  /\ 0 <= target_checksum identity < 2 ^ 32.
Proof.
  apply (init_accepts_only_intact_patches identity_patch identity).
  vm_compute. reflexivity.
Defined.

(** X9: whatever the bytes given to it, the empty patch included,
    [__init__] raises nothing but [InvalidPatch] for the header,
    [InvalidPatch] for the checksum, or [UnicodeDecodeError] for the
    metadata, and the last only for a patch whose header and checksum are
    right. *)
Theorem init_raises_only (patch : bytes) (e : exn) :
  BPSPatch_init patch = Raise e ->
  e = InvalidPatch (MagicHeaderIncorrect (firstn 4 patch))
  \/ e = InvalidPatch (PatchChecksumMismatch (stored_patch_checksum patch)
                                            (computed_patch_checksum patch))
  \/ (e = UnicodeDecodeError
      /\ firstn 4 patch = MAGIC_HEADER
      /\ stored_patch_checksum patch = computed_patch_checksum patch).
Proof.
  intros H.
  destruct (list_eq_dec byte_eq_dec (firstn 4 patch) MAGIC_HEADER) as [Hh|Hh].
  - destruct (Z.eq_dec (stored_patch_checksum patch)
                       (computed_patch_checksum patch)) as [Hc|Hc].
    + right. right. rewrite (init_accepted patch Hh Hc) in H.
      destruct (read_number (skipn 4 patch)) as [ss r1].
      destruct (read_number r1) as [ts r2].
      destruct (read_number r2) as [ms r3].
      destruct (Utf8.decode _) as [text|]; [discriminate|].
      injection H as <-. repeat split; assumption.
    + right. left. unfold BPSPatch_init in H.
      rewrite init_header_check, Hh in H.
      destruct (init_checksum_slices patch) as [E1 E2].
      rewrite E1, E2 in H.
      replace (bytes_eqb MAGIC_HEADER MAGIC_HEADER) with true in H
        by reflexivity.
      cbn [negb] in H.
      destruct (stored_patch_checksum patch =? computed_patch_checksum patch)
        eqn:E; [apply Z.eqb_eq in E; contradiction|].
      cbn [negb] in H. injection H as <-. reflexivity.
    - left. unfold BPSPatch_init in H. rewrite init_header_check in H.
      destruct (bytes_eqb (firstn 4 patch) MAGIC_HEADER) eqn:E;
        [apply bytes_eqb_eq in E; contradiction|].
      cbn [negb] in H. injection H as <-. reflexivity.
Qed.

Lemma init_raises_only_witness :
  InvalidPatch (MagicHeaderIncorrect [])
  = InvalidPatch (MagicHeaderIncorrect (firstn 4 []))
  \/ InvalidPatch (MagicHeaderIncorrect [])
     = InvalidPatch (PatchChecksumMismatch (stored_patch_checksum [])
                                           (computed_patch_checksum []))
  \/ (InvalidPatch (MagicHeaderIncorrect []) = UnicodeDecodeError
      /\ firstn 4 [] = MAGIC_HEADER
      /\ stored_patch_checksum [] = computed_patch_checksum []).
Proof.
  apply (init_raises_only [] (InvalidPatch (MagicHeaderIncorrect []))).
  reflexivity.
Defined.

(* ------------------------------------------------------------------ *)
(** ** [BPSPatch.__init__]: the layout of a patch *)

Lemma len_app {A} (a b : list A) : len (a ++ b) = len a + len b.
Proof. unfold len. rewrite length_app. lia. Qed.

(** A slice whose clipped bounds fall on the two ends of the middle part
    of a list is that part. *)
Lemma getslice_middle {A} (pre mid post : list A) (start stop : option Z) :
  Py.bound (len (pre ++ mid ++ post)) 0 start = len pre ->
  Py.bound (len (pre ++ mid ++ post)) (len (pre ++ mid ++ post)) stop
  = len pre + len mid ->
  Py.getslice (pre ++ mid ++ post) start stop = mid.
Proof.
  intros Hlo Hhi. unfold Py.getslice. rewrite Hlo, Hhi.
  replace (Z.to_nat (len pre + len mid - len pre)) with (length mid)
    by (unfold len; lia).
  replace (Z.to_nat (len pre)) with (length pre) by (unfold len; lia).
  rewrite skipn_app, skipn_all, Nat.sub_diag. cbn [skipn app].
  rewrite firstn_app, firstn_all, Nat.sub_diag. cbn [firstn].
  apply app_nil_r.
Qed.

(** X10: a patch laid out as the magic, three numbers each ending at its
    terminal byte, the metadata of the length the third number gives, the
    actions, and three four-byte checksums of which the last is the CRC32
    of all that precedes it, is accepted, and the object holds exactly
    these parts. *)
Theorem init_parses_layout
  (e_ss e_ts e_ms meta acts f_sc f_tc f_pc : bytes) (ss ts : Z)
  (text : list Z) :
  read_number_io e_ss = (Some ss, []) ->
  read_number_io e_ts = (Some ts, []) ->
  read_number_io e_ms = (Some (len meta), []) ->
  Utf8.decode meta = Some text ->
  length f_sc = 4%nat -> length f_tc = 4%nat -> length f_pc = 4%nat ->
  convert_uint f_pc
  = Crc.crc32 (MAGIC_HEADER ++ e_ss ++ e_ts ++ e_ms ++ meta ++ acts
               ++ f_sc ++ f_tc) ->
  BPSPatch_init (MAGIC_HEADER ++ e_ss ++ e_ts ++ e_ms ++ meta ++ acts
                 ++ f_sc ++ f_tc ++ f_pc)
  = Ok {| source_checksum := convert_uint f_sc;
          target_checksum := convert_uint f_tc;
          patch_checksum := convert_uint f_pc;
          source_size := Some ss;
          target_size := Some ts;
          metadata_size := Some (len meta);
          metadata := text;
          actions := acts |}.
Proof.
  intros Hss Hts Hms Htext Lsc Ltc Lpc Hcrc.
  set (patch := MAGIC_HEADER ++ e_ss ++ e_ts ++ e_ms ++ meta ++ acts
                ++ f_sc ++ f_tc ++ f_pc).
  set (body := MAGIC_HEADER ++ e_ss ++ e_ts ++ e_ms ++ meta ++ acts
               ++ f_sc ++ f_tc) in *.
  assert (patch = body ++ f_pc) as Hbody
    by (unfold patch, body; rewrite <- !app_assoc; reflexivity).
  assert (length patch - 4 = length body)%nat as Hlen
    by (rewrite Hbody, length_app; lia).
  assert (stored_patch_checksum patch = convert_uint f_pc) as Hstored.
  { unfold stored_patch_checksum. rewrite Hlen, Hbody.
    rewrite skipn_app, skipn_all, Nat.sub_diag. reflexivity. }
  assert (computed_patch_checksum patch = Crc.crc32 body) as Hcomputed.
  { unfold computed_patch_checksum. rewrite Hlen, Hbody.
    rewrite firstn_app, firstn_all, Nat.sub_diag. cbn [firstn].
    rewrite app_nil_r. reflexivity. }
  rewrite (init_accepted patch); [|reflexivity|congruence].
  change (skipn 4 patch)
    with (e_ss ++ e_ts ++ e_ms ++ meta ++ acts ++ f_sc ++ f_tc ++ f_pc).
  unfold read_number.
  rewrite (read_number_loop_extend e_ss 0 1 ss [] _ Hss). cbn [app].
  rewrite (read_number_loop_extend e_ts 0 1 ts [] _ Hts). cbn [app].
  rewrite (read_number_loop_extend e_ms 0 1 (len meta) [] _ Hms). cbn [app].
  assert (Py.getslice (meta ++ acts ++ f_sc ++ f_tc ++ f_pc) None
            (Some (len meta)) = meta) as ->.
  { rewrite getslice_prefix by apply len_nonneg.
    unfold len. rewrite Nat2Z.id, firstn_app, firstn_all, Nat.sub_diag.
    cbn [firstn]. apply app_nil_r. }
  rewrite Htext.
  assert (Py.getslice (meta ++ acts ++ f_sc ++ f_tc ++ f_pc)
            (Some (len meta)) (Some (-12)) = acts) as ->.
  { apply (getslice_middle meta acts (f_sc ++ f_tc ++ f_pc));
      unfold Py.bound, Py.adjust_index; rewrite !len_app;
      pose proof (len_nonneg meta); pose proof (len_nonneg acts);
      unfold len in *.
    - assert ((Z.of_nat (length meta) <? 0) = false) as ->
        by (apply Z.ltb_ge; lia).
      lia.
    - cbn [Z.ltb Z.compare]. lia. }
  assert (Py.getslice patch (Some (-12)) (Some (-8)) = f_sc) as ->.
  { unfold patch.
    replace (MAGIC_HEADER ++ e_ss ++ e_ts ++ e_ms ++ meta ++ acts
             ++ f_sc ++ f_tc ++ f_pc)
      with ((MAGIC_HEADER ++ e_ss ++ e_ts ++ e_ms ++ meta ++ acts)
            ++ f_sc ++ f_tc ++ f_pc)
      by (rewrite <- !app_assoc; reflexivity).
    apply getslice_middle;
      unfold Py.bound, Py.adjust_index; rewrite !len_app;
      cbn [Z.ltb Z.compare]; unfold len; lia. }
  assert (Py.getslice patch (Some (-8)) (Some (-4)) = f_tc) as ->.
  { unfold patch.
    replace (MAGIC_HEADER ++ e_ss ++ e_ts ++ e_ms ++ meta ++ acts
             ++ f_sc ++ f_tc ++ f_pc)
      with ((MAGIC_HEADER ++ e_ss ++ e_ts ++ e_ms ++ meta ++ acts ++ f_sc)
            ++ f_tc ++ f_pc)
      by (rewrite <- !app_assoc; reflexivity).
    apply getslice_middle;
      unfold Py.bound, Py.adjust_index; rewrite !len_app;
      cbn [Z.ltb Z.compare]; unfold len; lia. }
  rewrite Hstored. reflexivity.
Qed.

Lemma init_parses_layout_witness :
  BPSPatch_init (MAGIC_HEADER ++ [x84] ++ [x84] ++ [x80] ++ [] ++ [x8c]
                 ++ [xcd; xfb; x3c; xb6] ++ [xcd; xfb; x3c; xb6]
                 ++ [xc1; x8d; x46; x8f])
  = Ok {| source_checksum := convert_uint [xcd; xfb; x3c; xb6];
          target_checksum := convert_uint [xcd; xfb; x3c; xb6];
          patch_checksum := convert_uint [xc1; x8d; x46; x8f];
          source_size := Some 4;
          target_size := Some 4;
          metadata_size := Some (len (@nil byte));
          metadata := [];
          actions := [x8c] |}.
Proof.
  apply (init_parses_layout [x84] [x84] [x80] [] [x8c]
           [xcd; xfb; x3c; xb6] [xcd; xfb; x3c; xb6] [xc1; x8d; x46; x8f]
           4 4 []);
    reflexivity.
Defined.

(** What [read_number] leaves is the end of what it was given, and a
    number that is read takes at least one byte. *)
Lemma read_number_suffix (b r : bytes) (v : option Z) :
  read_number b = (v, r) ->
  exists used, b = used ++ r /\ (v <> None -> (1 <= length used)%nat).
Proof.
  intros H. destruct v as [v|].
  - apply read_number_loop_split in H.
    destruct H as (used & last & -> & _ & _).
    exists (used ++ [last]). rewrite <- app_assoc. split; [reflexivity|].
    intros _. rewrite length_app. cbn [length]. lia.
  - pose proof (read_number_none b r H) as ->.
    exists b. rewrite app_nil_r. split; [reflexivity | congruence].
Qed.

(** A slice that stops twelve before the end and is not empty lies
    between a front part and the last twelve elements. *)
Lemma getslice_before_footer {A} (l : list A) (start : option Z) :
  Py.getslice l start (Some (-12)) <> [] ->
  exists front,
    l = front ++ Py.getslice l start (Some (-12)) ++ skipn (length l - 12) l
    /\ (12 < length l)%nat.
Proof.
  unfold Py.getslice. cbn [Py.bound].
  set (lo := Py.bound (len l) 0 start).
  assert (Py.adjust_index (len l) (-12) = Z.max 0 (len l - 12)) as ->
    by (unfold Py.adjust_index; cbn [Z.ltb Z.compare]; f_equal; lia).
  intros Hne.
  assert (0 <= lo) as Hlo.
  { unfold lo, Py.bound, Py.adjust_index. destruct start as [a|]; [|lia].
    pose proof (len_nonneg l). destruct (a <? 0) eqn:E; [lia|].
    apply Z.ltb_ge in E. lia. }
  assert (lo < Z.max 0 (len l - 12)) as Hlt.
  { destruct (Z_lt_le_dec lo (Z.max 0 (len l - 12))) as [|Hge]; [assumption|].
    exfalso. apply Hne.
    replace (Z.to_nat (Z.max 0 (len l - 12) - lo)) with 0%nat by lia.
    reflexivity. }
  exists (firstn (Z.to_nat lo) l). unfold len in *. split; [|lia].
  rewrite <- (firstn_skipn (Z.to_nat lo) l) at 1. f_equal.
  rewrite <- (firstn_skipn (Z.to_nat (Z.max 0 (Z.of_nat (length l) - 12) - lo))
                (skipn (Z.to_nat lo) l)) at 1.
  f_equal. rewrite skipn_skipn. f_equal. lia.
Qed.

(** X11: in an accepted patch the action stream, when it is not empty, is
    the run of bytes that ends where the last twelve bytes begin, and at
    least seven bytes come before it: the header and the three numbers.
    The actions never take in a byte of the checksums. *)
Theorem init_actions_end_before_checksums (patch : bytes) (p : BPSPatch) :
  BPSPatch_init patch = Ok p ->
  actions p <> [] ->
  exists front,
    patch = front ++ actions p ++ skipn (length patch - 12) patch
    /\ (7 <= length front)%nat
    /\ length (skipn (length patch - 12) patch) = 12%nat.
Proof.
  intros H Hne.
  destruct (init_ok_checked patch p H) as [Hh Hc].
  rewrite (init_accepted patch Hh Hc) in H.
  destruct (read_number (skipn 4 patch)) as [ss r1] eqn:E1.
  destruct (read_number r1) as [ts r2] eqn:E2.
  destruct (read_number r2) as [ms r3] eqn:E3.
  destruct (Utf8.decode _) as [text|]; [|discriminate].
  injection H as <-. cbn [actions] in Hne |- *.
  assert (ms <> None) as Hms.
  { intros ->. apply read_number_none in E3. subst r3.
    apply Hne. apply getslice_nil. }
  assert (ts <> None) as Hts.
  { intros ->. apply read_number_none in E2. subst r2.
    rewrite read_number_nil in E3. congruence. }
  assert (ss <> None) as Hss.
  { intros ->. apply read_number_none in E1. subst r1.
    rewrite read_number_nil in E2. congruence. }
  destruct (read_number_suffix _ _ _ E1) as (u1 & Hu1 & L1).
  destruct (read_number_suffix _ _ _ E2) as (u2 & -> & L2).
  destruct (read_number_suffix _ _ _ E3) as (u3 & -> & L3).
  specialize (L1 Hss). specialize (L2 Hts). specialize (L3 Hms).
  destruct (getslice_before_footer r3 ms Hne) as (front & Hr3 & Hlong).
  set (acts := Py.getslice r3 ms (Some (-12))) in *.
  assert (patch = (MAGIC_HEADER ++ u1 ++ u2 ++ u3) ++ r3) as Hpatch.
  { rewrite <- (firstn_skipn 4 patch), Hh, Hu1.
    rewrite <- !app_assoc. reflexivity. }
  assert (skipn (length patch - 12) patch = skipn (length r3 - 12) r3)
    as Hfoot.
  { rewrite Hpatch at 2. rewrite skipn_app.
    assert (length patch
            = length (MAGIC_HEADER ++ u1 ++ u2 ++ u3) + length r3)%nat as Hl
      by (rewrite Hpatch at 1; apply length_app).
    rewrite (skipn_all2 (MAGIC_HEADER ++ u1 ++ u2 ++ u3)) by lia.
    cbn [app]. f_equal. lia. }
  exists ((MAGIC_HEADER ++ u1 ++ u2 ++ u3) ++ front).
  rewrite Hfoot. repeat split.
  - rewrite Hpatch at 1. rewrite Hr3 at 1. rewrite <- !app_assoc.
    reflexivity.
  - rewrite !length_app. cbn [length MAGIC_HEADER]. lia.
  - rewrite length_skipn. lia.
Qed.

Lemma init_actions_end_before_checksums_witness :
  exists front,
    three_copies_patch
    = front ++ actions three_copies
      ++ skipn (length three_copies_patch - 12) three_copies_patch
    /\ (7 <= length front)%nat
    /\ length (skipn (length three_copies_patch - 12) three_copies_patch)
       = 12%nat.
Proof.
  apply (init_actions_end_before_checksums three_copies_patch three_copies).
  - vm_compute. reflexivity.
  - discriminate.
Defined.

(* ------------------------------------------------------------------ *)
(** ** [patch_rom]: whole runs *)

Lemma step_break_iff source st :
  step source st = Break
  <-> forallb (fun x => negb (terminal x)) (stream st) = true.
Proof.
  rewrite <- (read_number_loop_none_iff (stream st) 0 1).
  unfold step, read_number_io.
  destruct (read_number_loop 0 1 (stream st)) as [[action|] rest] eqn:E;
    cbn [fst].
  - split; [|discriminate].
    intros H. exfalso. revert H.
    repeat match goal with
           | |- context [if ?c then _ else _] => destruct c
           | |- context [match ?c with _ => _ end] => destruct c
           end; discriminate.
  - split; reflexivity.
Qed.

Lemma run_loop_break source st :
  forallb (fun x => negb (terminal x)) (stream st) = true ->
  run_loop source st = Ok st.
Proof.
  intros H. apply step_break_iff with (source := source) in H.
  rewrite run_loop_eq, H. reflexivity.
Qed.

(** X12: an action stream with no complete action in it, be it empty or a
    number without its terminal byte, is a run of no instruction and no
    error: the zero-filled buffer of the target size is what is checked
    against the target checksum and returned. *)
Theorem patch_rom_without_actions (self : BPSPatch) (source : bytes) (n : Z) :
  source_size self = Some (len source) ->
  Crc.crc32 source = source_checksum self ->
  target_size self = Some n ->
  forallb (fun x => negb (terminal x)) (actions self) = true ->
  patch_rom self source
  = if Crc.crc32 (Py.bytearray n) =? target_checksum self
    then Ok (Py.bytearray n)
    else Raise (InvalidPatch
                  (TargetChecksumMismatch (Crc.crc32 (Py.bytearray n))
                                          (target_checksum self))).
Proof.
  intros Hs Hc Ht Hnone.
  rewrite (patch_rom_checked self source n Hs Hc Ht).
  rewrite run_loop_break by exact Hnone.
  cbn [bind initial_state target].
  destruct (Crc.crc32 (Py.bytearray n) =? target_checksum self); reflexivity.
Qed.

Lemma patch_rom_without_actions_witness :
  patch_rom (container 0 2 [x0c; x01] 0 1104745215 0) [] = Ok [x00; x00].
Proof.
  rewrite (patch_rom_without_actions (container 0 2 [x0c; x01] 0 1104745215 0)
             [] 2);
    reflexivity.
Defined.

Lemma setslice_whole {A} (t v : list A) :
  Py.setslice t 0 (0 + len t) v = v.
Proof.
  unfold Py.setslice, Py.adjust_index.
  pose proof (len_nonneg t).
  assert ((0 + len t <? 0) = false) as -> by (apply Z.ltb_ge; lia).
  cbn [Z.ltb Z.compare]. rewrite Z.min_l by lia. cbn [Z.to_nat firstn app].
  rewrite skipn_all2 by (unfold len; lia). apply app_nil_r.
Qed.

Lemma bytearray_len (n : Z) : 0 <= n -> len (Py.bytearray n) = n.
Proof.
  intros H. unfold len, Py.bytearray. rewrite repeat_length. lia.
Qed.

(** The command and the length of the action [4 * (n - 1) + c]. *)
Lemma action_fields (n c : Z) :
  0 <= c < 4 ->
  Z.land (4 * (n - 1) + c) 3 = c /\ Z.shiftr (4 * (n - 1) + c) 2 + 1 = n.
Proof.
  intros Hc. change 3 with (Z.ones 2).
  rewrite Z.land_ones, Z.shiftr_div_pow2 by lia. change (2 ^ 2) with 4.
  rewrite Z.add_comm, Z.mul_comm, Z.mod_add, Z.div_add by lia.
  rewrite Z.mod_small, Z.div_small by lia. lia.
Qed.

(** X13: the patch whose action stream is one SourceRead of the length of
    the source, with both sizes that length and both checksums the CRC32
    of the source, returns the source, whatever non-empty source it is. *)
Theorem patch_rom_source_read_is_identity (self : BPSPatch) (source : bytes) :
  1 <= len source ->
  source_size self = Some (len source) ->
  target_size self = Some (len source) ->
  source_checksum self = Crc.crc32 source ->
  target_checksum self = Crc.crc32 source ->
  read_number_io (actions self) = (Some (4 * (len source - 1)), []) ->
  patch_rom self source = Ok source.
Proof.
  intros Hlen Hs Ht Hsc Htc Ha.
  rewrite (patch_rom_checked self source (len source) Hs (eq_sym Hsc) Ht).
  destruct (action_fields (len source) 0 ltac:(lia)) as [Hcmd Hl].
  rewrite Z.add_0_r in Hcmd, Hl.
  rewrite run_loop_eq.
  rewrite (step_source_read source (initial_state self (len source))
             (4 * (len source - 1)) [] Ha Hcmd).
  rewrite Hl. cbn [initial_state target output_offset].
  rewrite <- (bytearray_len (len source)) at 2 by lia.
  rewrite setslice_whole.
  rewrite (getslice_from_front source 0 (len source)) by lia.
  cbn [Z.to_nat skipn]. rewrite firstn_all2 by (unfold len; lia).
  rewrite run_loop_break by reflexivity.
  cbn [bind target]. rewrite Htc, Z.eqb_refl. reflexivity.
Qed.

Lemma patch_rom_source_read_is_identity_witness :
  patch_rom identity source_1234 = Ok source_1234.
Proof.
  apply (patch_rom_source_read_is_identity identity source_1234);
    try reflexivity.
  vm_compute. discriminate.
Defined.

(** X14: the patch whose action stream is one TargetRead followed by its
    payload, with the target size the length of the payload and the target
    checksum its CRC32, returns the payload, for every source that passes
    the two checks.  The payload has at most [sys.maxsize] bytes, as every
    byte string of Python has. *)
Theorem patch_rom_target_read_is_literal
  (self : BPSPatch) (source e payload : bytes) :
  1 <= len payload ->
  len payload <= Py.maxsize ->
  source_size self = Some (len source) ->
  Crc.crc32 source = source_checksum self ->
  target_size self = Some (len payload) ->
  target_checksum self = Crc.crc32 payload ->
  read_number_io e = (Some (4 * (len payload - 1) + 1), []) ->
  actions self = e ++ payload ->
  patch_rom self source = Ok payload.
Proof.
  intros Hlen Hmax Hs Hsc Ht Htc He Ha.
  rewrite (patch_rom_checked self source (len payload) Hs Hsc Ht).
  destruct (action_fields (len payload) 1 ltac:(lia)) as [Hcmd Hl].
  assert (read_number_io (stream (initial_state self (len payload)))
          = (Some (4 * (len payload - 1) + 1), payload)) as Hread.
  { cbn [initial_state stream]. rewrite Ha.
    apply (read_number_loop_extend e 0 1 _ [] payload He). }
  rewrite run_loop_eq.
  rewrite (step_target_read source (initial_state self (len payload))
             _ payload Hread Hcmd) by (rewrite Hl; exact Hmax).
  rewrite Hl. cbn [initial_state target output_offset].
  rewrite <- (bytearray_len (len payload)) at 2 by lia.
  rewrite setslice_whole.
  replace (Z.to_nat (len payload)) with (length payload) by (unfold len; lia).
  rewrite firstn_all, skipn_all.
  rewrite run_loop_break by reflexivity.
  cbn [bind target]. rewrite Htc, Z.eqb_refl. reflexivity.
Qed.

Lemma patch_rom_target_read_is_literal_witness :
  patch_rom (container 4 2 [x85; x41; x42] 3057449933 812207111 0)
            source_1234
  = Ok [x41; x42].
Proof.
  apply (patch_rom_target_read_is_literal
           (container 4 2 [x85; x41; x42] 3057449933 812207111 0)
           source_1234 [x85] [x41; x42]);
    try reflexivity; vm_compute; discriminate.
Defined.

(* ------------------------------------------------------------------ *)
(** ** TargetCopy from a range that does not overlap the written one *)

Lemma skipn_nth_error {A} (l : list A) (j : nat) (v : A) :
  nth_error l j = Some v -> skipn j l = v :: skipn (S j) l.
Proof.
  revert l. induction j as [|j IH]; intros [|x l] H; try discriminate.
  - injection H as ->. reflexivity.
  - cbn [nth_error] in H. cbn [skipn]. rewrite (IH l H). reflexivity.
Qed.

(** Reading [n] elements from position [a] is not affected by a change
    of the list from position [o] on, when [a + n <= o]. *)
Lemma firstn_skipn_before {A} (t x : list A) (a n o : nat) :
  (a + n <= o)%nat -> (o <= length t)%nat ->
  firstn n (skipn a (firstn o t ++ x)) = firstn n (skipn a t).
Proof.
  intros Han Ho.
  assert (length (firstn o t) = o) as Hl by (rewrite length_firstn; lia).
  rewrite skipn_app, Hl.
  replace (a - o)%nat with 0%nat by lia. cbn [skipn].
  rewrite firstn_app, length_skipn, Hl.
  replace (n - (o - a))%nat with 0%nat by lia. cbn [firstn].
  rewrite app_nil_r.
  rewrite !firstn_skipn_comm, firstn_firstn.
  replace (Nat.min (a + n) o) with (a + n)%nat by lia. reflexivity.
Qed.

Lemma setslice_in_bounds {A} (t v : list A) (o n : Z) :
  0 <= o -> 0 <= n -> o + n <= len t ->
  Py.setslice t o (o + n) v
  = firstn (Z.to_nat o) t ++ v ++ skipn (Z.to_nat (o + n)) t.
Proof.
  intros Ho Hn Hin. unfold Py.setslice, Py.adjust_index.
  assert ((o <? 0) = false) as -> by (apply Z.ltb_ge; lia).
  assert ((o + n <? 0) = false) as -> by (apply Z.ltb_ge; lia).
  rewrite !Z.min_l, Z.max_r by lia. reflexivity.
Qed.

Lemma target_copy_disjoint (n : nat) :
  forall (t : bytes) (o tro : nat),
    (tro + n <= o)%nat -> (o + n <= length t)%nat ->
    target_copy n t (Z.of_nat o) (Z.of_nat tro)
    = Some (firstn o t ++ firstn n (skipn tro t) ++ skipn (o + n) t,
            Z.of_nat o + Z.of_nat n, Z.of_nat tro + Z.of_nat n).
Proof.
  induction n as [|n IH]; intros t o tro Hsep Hin.
  - cbn [target_copy firstn app]. rewrite Nat.add_0_r, firstn_skipn.
    rewrite !Z.add_0_r. reflexivity.
  - cbn [target_copy].
    destruct (nth_error t tro) as [v|] eqn:Hv;
      [|apply nth_error_None in Hv; lia].
    rewrite getitem_in_range, Hv by lia.
    rewrite setitem_in_range by lia.
    set (t' := firstn o t ++ v :: skipn (S o) t).
    assert (length (firstn o t) = o) as Hpre by (rewrite length_firstn; lia).
    assert (length t' = length t) as Hlen'.
    { unfold t'. rewrite length_app, Hpre. cbn [length].
      rewrite length_skipn. lia. }
    replace (Z.of_nat o + 1) with (Z.of_nat (S o)) by lia.
    replace (Z.of_nat tro + 1) with (Z.of_nat (S tro)) by lia.
    rewrite (IH t' (S o) (S tro)) by lia.
    f_equal. f_equal; [f_equal|]; try lia.
    assert (firstn (S o) t' = firstn o t ++ [v]) as ->.
    { unfold t'. rewrite <- Hpre at 1.
      change (S (length (firstn o t))) with (1 + length (firstn o t))%nat.
      rewrite Nat.add_comm, firstn_app_2. reflexivity. }
    assert (skipn (S o + n) t' = skipn (o + S n) t) as ->.
    { unfold t'. rewrite skipn_app, Hpre.
      rewrite skipn_all2 by lia.
      replace (S o + n - o)%nat with (S n) by lia.
      rewrite app_nil_l, skipn_cons, skipn_skipn. f_equal. lia. }
    assert (firstn n (skipn (S tro) t') = firstn n (skipn (S tro) t)) as ->
      by (unfold t'; apply firstn_skipn_before; lia).
    rewrite (skipn_nth_error t tro v Hv). cbn [firstn].
    rewrite <- app_assoc. reflexivity.
Qed.

(** X15: when the range a TargetCopy reads, after its delta, lies inside
    the buffer and ends at or before [output_offset], and the range it
    writes lies inside the buffer, the byte-by-byte loop does what the one
    slice assignment [target[o:o+length] = target[tro:tro+length]] would
    do. *)
Theorem target_copy_of_earlier_bytes_is_a_slice_copy
  (source : bytes) (st : RunState) (action data : Z) (rest rest' : bytes) :
  read_number_io (stream st) = (Some action, rest) ->
  Z.land action 3 = Action_value TargetCopy ->
  read_number_io rest = (Some data, rest') ->
  let length_ := Z.shiftr action 2 + 1 in
  let o := output_offset st in
  let tro := target_relative_offset st + signed_delta data in
  0 <= tro ->
  tro + length_ <= o ->
  o + length_ <= len (target st) ->
  step source st
  = Next {| target := Py.setslice (target st) o (o + length_)
                        (Py.getslice (target st) (Some tro)
                                     (Some (tro + length_)));
            stream := rest';
            output_offset := o + length_;
            source_relative_offset := source_relative_offset st;
            target_relative_offset := tro + length_ |}.
Proof.
  intros Ha Hc Hd length_ o tro Htro Hsep Hin.
  pose proof (action_length_pos _ _ _ Ha) as HL. fold length_ in HL.
  rewrite (step_target_copy source st action rest Ha data rest' Hc Hd).
  fold length_ o tro.
  rewrite setslice_in_bounds, getslice_from_front by lia.
  unfold len in Hin.
  replace o with (Z.of_nat (Z.to_nat o)) at 1 by lia.
  replace tro with (Z.of_nat (Z.to_nat tro)) at 1 by lia.
  rewrite target_copy_disjoint by lia.
  replace (Z.to_nat (o + length_)) with (Z.to_nat o + Z.to_nat length_)%nat
    by lia.
  f_equal. f_equal; lia.
Qed.

Lemma target_copy_of_earlier_bytes_is_a_slice_copy_witness :
  step [] {| target := [x41; x42; x00; x00];
             stream := [x87; x80];
             output_offset := 2;
             source_relative_offset := 0;
             target_relative_offset := 0 |}
  = Next {| target := [x41; x42; x41; x42];
            stream := [];
            output_offset := 4;
            source_relative_offset := 0;
            target_relative_offset := 2 |}.
Proof.
  refine (target_copy_of_earlier_bytes_is_a_slice_copy []
            {| target := [x41; x42; x00; x00];
               stream := [x87; x80];
               output_offset := 2;
               source_relative_offset := 0;
               target_relative_offset := 0 |}
            7 0 [x80] [] _ _ _ _ _ _);
    try reflexivity; vm_compute; discriminate.
Defined.

(* ------------------------------------------------------------------ *)
(** ** A turn inside its buffers *)

Lemma frame_of_parts {A} (t data : list A) (o n : nat) :
  (o + n <= length t)%nat -> length data = n ->
  let t' := firstn o t ++ data ++ skipn (o + n) t in
  length t' = length t
  /\ firstn o t' = firstn o t
  /\ skipn (o + n) t' = skipn (o + n) t
  /\ firstn n (skipn o t') = data.
Proof.
  intros Hin Hd t'.
  assert (length (firstn o t) = o) as Hpre by (rewrite length_firstn; lia).
  unfold t'. repeat split.
  - rewrite !length_app, Hpre, length_skipn. lia.
  - rewrite firstn_app, Hpre, Nat.sub_diag. cbn [firstn].
    rewrite app_nil_r. apply firstn_all2. lia.
  - rewrite skipn_app, Hpre, skipn_all2 by lia. cbn [app].
    replace (o + n - o)%nat with n by lia.
    rewrite skipn_app, Hd, Nat.sub_diag, skipn_all2 by lia. reflexivity.
  - rewrite skipn_app, Hpre, Nat.sub_diag, skipn_all2 by lia. cbn [app skipn].
    rewrite firstn_app, Hd, Nat.sub_diag. cbn [firstn].
    rewrite app_nil_r. apply firstn_all2. lia.
Qed.

Lemma setitem_nonneg {A} (t t1 : list A) (o : Z) (v : A) :
  0 <= o -> Py.setitem t o v = Some t1 ->
  (Z.to_nat o < length t)%nat
  /\ t1 = firstn (Z.to_nat o) t ++ v :: skipn (S (Z.to_nat o)) t.
Proof.
  intros Ho H. unfold Py.setitem in H.
  destruct (Z_lt_le_dec o (len t)) as [Hin|Hout].
  - unfold len in Hin, H.
    replace o with (Z.of_nat (Z.to_nat o)) in H at 1 by lia.
    rewrite index_in_range in H by lia.
    injection H as <-. split; [lia | reflexivity].
  - rewrite index_past_end in H by lia. discriminate.
Qed.

(** The loop of TargetCopy changes no byte before the write cursor it
    starts from and none after the last byte it writes. *)
Lemma target_copy_frame (n : nat) :
  forall (t t' : bytes) (o tro o' tro' : Z),
    0 <= o ->
    target_copy n t o tro = Some (t', o', tro') ->
    firstn (Z.to_nat o) t' = firstn (Z.to_nat o) t
    /\ skipn (Z.to_nat o + n) t' = skipn (Z.to_nat o + n) t.
Proof.
  induction n as [|n IH]; intros t t' o tro o' tro' Ho; cbn [target_copy].
  - intros H. injection H as <- _ _. split; reflexivity.
  - destruct (Py.getitem t tro) as [v|]; [|discriminate].
    destruct (Py.setitem t o v) as [t1|] eqn:Hset; [|discriminate].
    destruct (setitem_nonneg t t1 o v Ho Hset) as [Hj Ht1].
    set (j := Z.to_nat o) in *.
    intros H. apply IH in H; [|lia].
    replace (Z.to_nat (o + 1)) with (S j) in H by (unfold j; lia).
    destruct H as [Hf Hs].
    assert (length (firstn j t) = j) as Hpre by (rewrite length_firstn; lia).
    split.
    + replace j with (Nat.min j (S j)) at 1 by lia.
      rewrite <- firstn_firstn, Hf, firstn_firstn.
      replace (Nat.min j (S j)) with j by lia.
      rewrite Ht1, firstn_app, Hpre, Nat.sub_diag. cbn [firstn].
      rewrite app_nil_r. apply firstn_all2. lia.
    + replace (j + S n)%nat with (S j + n)%nat by lia.
      rewrite Hs, Ht1, skipn_app, Hpre, skipn_all2 by lia.
      replace (S j + n - j)%nat with (S n) by lia.
      rewrite app_nil_l, skipn_cons, skipn_skipn. f_equal. lia.
Qed.

(** What a turn inside its buffers changes. *)
Lemma step_in_bounds_frame
  (source : bytes) (st st' : RunState) (action : Z) (rest : bytes) :
  read_number_io (stream st) = (Some action, rest) ->
  0 <= output_offset st ->
  turn_in_bounds source st = true ->
  step source st = Next st' ->
  let n := Z.to_nat (Z.shiftr action 2 + 1) in
  let o := Z.to_nat (output_offset st) in
  let written := firstn n (skipn o (target st')) in
  length (target st') = length (target st)
  /\ firstn o (target st') = firstn o (target st)
  /\ skipn (o + n) (target st') = skipn (o + n) (target st)
  /\ (Z.land action 3 = Action_value SourceRead ->
      written = firstn n (skipn o source) /\ length written = n)
  /\ (Z.land action 3 = Action_value TargetRead ->
      written = firstn n rest /\ length written = n)
  /\ (Z.land action 3 = Action_value SourceCopy ->
      forall data r,
        read_number_io rest = (Some data, r) ->
        written
        = firstn n (skipn (Z.to_nat (source_relative_offset st
                                     + signed_delta data)) source)
        /\ length written = n).
Proof.
  intros Ha Ho Hb Hstep n o written.
  pose proof (action_length_pos _ _ _ Ha) as HL.
  unfold turn_in_bounds in Hb. rewrite Ha in Hb.
  apply andb_prop in Hb. destruct Hb as [Hw Hr].
  apply Z.leb_le in Hw. unfold len in Hw.
  assert (o + n <= length (target st))%nat as Hin by (unfold o, n; lia).
  assert (Z.to_nat (output_offset st + (Z.shiftr action 2 + 1)) = (o + n)%nat)
    as Hon by (unfold o, n; lia).
  assert (forall data : bytes,
             length data = n ->
             target st' = firstn o (target st) ++ data
                          ++ skipn (o + n) (target st) ->
             length (target st') = length (target st)
             /\ firstn o (target st') = firstn o (target st)
             /\ skipn (o + n) (target st') = skipn (o + n) (target st)
             /\ written = data) as Hparts.
  { intros data Hd Ht. unfold written. rewrite Ht.
    apply (frame_of_parts (target st) data o n Hin Hd). }
  destruct (command_cases action) as [Hc|[Hc|[Hc|Hc]]];
    rewrite Hc in Hr; cbn [Action_value Z.eqb] in Hr.
  - rewrite (step_source_read source st action rest Ha Hc) in Hstep.
    injection Hstep as Hst. apply Z.leb_le in Hr. unfold len in Hr.
    assert (target st'
            = firstn o (target st) ++ firstn n (skipn o source)
              ++ skipn (o + n) (target st)) as Ht.
    { rewrite <- Hst. cbn [target].
      rewrite setslice_in_bounds, getslice_from_front, Hon
        by (unfold len; lia).
      reflexivity. }
    assert (length (firstn n (skipn o source)) = n) as Hd
      by (rewrite length_firstn, length_skipn; unfold o, n; lia).
    destruct (Hparts _ Hd Ht) as (H1 & H2 & H3 & H4).
    split; [exact H1|]. split; [exact H2|]. split; [exact H3|].
    split; [|split].
    + intros _. rewrite H4. split; [reflexivity | exact Hd].
    + intros Hc'. rewrite Hc in Hc'. discriminate.
    + intros Hc'. rewrite Hc in Hc'. discriminate.
  - destruct (Z_le_gt_dec (Z.shiftr action 2 + 1) Py.maxsize) as [Hmax|Hmax];
      [|rewrite (step_target_read_overflow source st action rest Ha Hc)
          in Hstep by lia; discriminate].
    rewrite (step_target_read source st action rest Ha Hc Hmax) in Hstep.
    injection Hstep as Hst. apply Z.leb_le in Hr. unfold len in Hr.
    assert (target st'
            = firstn o (target st) ++ firstn n rest
              ++ skipn (o + n) (target st)) as Ht.
    { rewrite <- Hst. cbn [target].
      rewrite setslice_in_bounds, Hon by (unfold len; lia).
      reflexivity. }
    assert (length (firstn n rest) = n) as Hd
      by (rewrite length_firstn; unfold n; lia).
    destruct (Hparts _ Hd Ht) as (H1 & H2 & H3 & H4).
    split; [exact H1|]. split; [exact H2|]. split; [exact H3|].
    split; [|split].
    + intros Hc'. rewrite Hc in Hc'. discriminate.
    + intros _. rewrite H4. split; [reflexivity | exact Hd].
    + intros Hc'. rewrite Hc in Hc'. discriminate.
  - destruct (read_number_io rest) as [[data|] rest'] eqn:Hd0.
    + rewrite (step_source_copy source st action rest Ha data rest' Hc Hd0)
        in Hstep.
      injection Hstep as Hst.
      apply andb_prop in Hr. destruct Hr as [Hlo Hhi].
      apply Z.leb_le in Hlo, Hhi. unfold len in Hhi.
      set (sro := source_relative_offset st + signed_delta data) in *.
      assert (target st'
              = firstn o (target st)
                ++ firstn n (skipn (Z.to_nat sro) source)
                ++ skipn (o + n) (target st)) as Ht.
      { rewrite <- Hst. cbn [target].
        rewrite setslice_in_bounds, getslice_from_front, Hon
          by (unfold len; lia).
        reflexivity. }
      assert (length (firstn n (skipn (Z.to_nat sro) source)) = n) as Hd
        by (rewrite length_firstn, length_skipn; unfold n; lia).
      destruct (Hparts _ Hd Ht) as (H1 & H2 & H3 & H4).
      split; [exact H1|]. split; [exact H2|]. split; [exact H3|].
      split; [|split].
      * intros Hc'. rewrite Hc in Hc'. discriminate.
      * intros Hc'. rewrite Hc in Hc'. discriminate.
      * intros _ data' r' Hd'. injection Hd' as <- _.
        fold sro. rewrite H4. split; [reflexivity | exact Hd].
    + rewrite (step_copy_no_delta source st action rest Ha rest'
                 (or_introl Hc) Hd0) in Hstep.
      discriminate.
  - destruct (read_number_io rest) as [[data|] rest'] eqn:Hd0.
    + rewrite (step_target_copy source st action rest Ha data rest' Hc Hd0)
        in Hstep.
      destruct target_copy as [[[t o'] tro']|] eqn:E; [|discriminate].
      injection Hstep as Hst.
      destruct (target_copy_offsets _ _ _ _ _ _ _ E) as (_ & _ & Hlen).
      destruct (target_copy_frame _ _ _ _ _ _ _ Ho E) as [Hf Hs].
      unfold written. rewrite <- Hst. cbn [target]. fold n o in Hf, Hs.
      split; [exact Hlen|]. split; [exact Hf|]. split; [exact Hs|].
      split; [|split]; intros Hc'; rewrite Hc in Hc'; discriminate.
    + rewrite (step_copy_no_delta source st action rest Ha rest'
                 (or_intror Hc) Hd0) in Hstep.
      discriminate.
Qed.

(** X16: a turn that stays inside its buffers keeps the length of the
    target, changes no byte before [output_offset] and none from
    [output_offset + length] on, and the [length] bytes in between are, for
    a SourceRead, the bytes of the source at the same position, for a
    TargetRead, the next bytes of the action stream, and for a SourceCopy,
    the bytes of the source at its cursor. *)
Theorem turn_in_bounds_writes_only_its_range
  (source : bytes) (st st' : RunState) (action : Z) (rest : bytes) :
  read_number_io (stream st) = (Some action, rest) ->
  0 <= output_offset st ->
  turn_in_bounds source st = true ->
  step source st = Next st' ->
  let n := Z.to_nat (Z.shiftr action 2 + 1) in
  let o := Z.to_nat (output_offset st) in
  let written := firstn n (skipn o (target st')) in
  length (target st') = length (target st)
  /\ firstn o (target st') = firstn o (target st)
  /\ skipn (o + n) (target st') = skipn (o + n) (target st)
  /\ (Z.land action 3 = Action_value SourceRead ->
      written = firstn n (skipn o source) /\ length written = n)
  /\ (Z.land action 3 = Action_value TargetRead ->
      written = firstn n rest /\ length written = n)
  /\ (Z.land action 3 = Action_value SourceCopy ->
      forall data r,
        read_number_io rest = (Some data, r) ->
        written
        = firstn n (skipn (Z.to_nat (source_relative_offset st
                                     + signed_delta data)) source)
        /\ length written = n).
Proof.
  apply step_in_bounds_frame.
Qed.

Lemma turn_in_bounds_writes_only_its_range_witness :
  let st' := {| target := [x0e; x0f; x0d; x0e; x00; x00];
                stream := [x86; x82];
                output_offset := 4;
                source_relative_offset := 5;
                target_relative_offset := 0 |} in
  length (target st') = length (target after_first_copy)
  /\ firstn 2 (target st') = firstn 2 (target after_first_copy)
  /\ skipn (2 + 2) (target st') = skipn (2 + 2) (target after_first_copy)
  /\ firstn 2 (skipn 2 (target st')) = firstn 2 (skipn 3 source_8).
Proof.
  intros st'.
  destruct (turn_in_bounds_writes_only_its_range source_8 after_first_copy
              st' 6 [x87; x86; x82] eq_refl ltac:(discriminate)
              eq_refl eq_refl)
    as (H1 & H2 & H3 & _ & _ & H6).
  split; [exact H1|]. split; [exact H2|]. split; [exact H3|].
  exact (proj1 (H6 eq_refl 7 [x86; x82] eq_refl)).
Defined.

(* ------------------------------------------------------------------ *)
(** ** [BPSPatch(patch).patch_rom(source)] *)

(** X18: when a patch is parsed and applied and a target comes back, the
    patch starts with "BPS1", its last four bytes are the CRC32 of the
    bytes before them, the CRC32 of the source is the number in its bytes
    -12 to -8, and the CRC32 of the target that is returned is the number
    in its bytes -8 to -4. *)
Theorem apply_patch_certifies_checksums (patch source t : bytes) :
  apply_patch patch source = Ok t ->
  firstn 4 patch = MAGIC_HEADER
  /\ stored_patch_checksum patch = computed_patch_checksum patch
  /\ Crc.crc32 source
     = convert_uint (Py.getslice patch (Some (-12)) (Some (-8)))
  /\ Crc.crc32 t
     = convert_uint (Py.getslice patch (Some (-8)) (Some (-4))).
Proof.
  unfold apply_patch.
  destruct (BPSPatch_init patch) as [p|e] eqn:Hp; cbn [bind]; [|discriminate].
  intros Hrun.
  destruct (init_ok_checked patch p Hp) as [Hh Hc].
  split; [exact Hh|]. split; [exact Hc|].
  rewrite (init_accepted patch Hh Hc) in Hp.
  destruct (read_number (skipn 4 patch)) as [ss r1].
  destruct (read_number r1) as [ts r2].
  destruct (read_number r2) as [ms r3].
  destruct (Utf8.decode _) as [text|]; [|discriminate].
  injection Hp as <-.
  apply patch_rom_ok in Hrun.
  destruct Hrun as (_ & Hsc & n & st & _ & _ & _ & Htc).
  cbn [source_checksum target_checksum] in Hsc, Htc.
  split; assumption.
Qed.

Lemma apply_patch_certifies_checksums_witness :
  firstn 4 three_copies_patch = MAGIC_HEADER
  /\ stored_patch_checksum three_copies_patch
     = computed_patch_checksum three_copies_patch
  /\ Crc.crc32 source_8
     = convert_uint (Py.getslice three_copies_patch (Some (-12)) (Some (-8)))
  /\ Crc.crc32 [x0e; x0f; x0d; x0e; x10; x11]
     = convert_uint (Py.getslice three_copies_patch (Some (-8)) (Some (-4))).
Proof.
  apply (apply_patch_certifies_checksums three_copies_patch source_8
           [x0e; x0f; x0d; x0e; x10; x11]).
  vm_compute. reflexivity.
Defined.

(* ------------------------------------------------------------------ *)
(** ** A run inside its buffers *)

Lemma skipn_repeat {A} (x : A) (k n : nat) :
  skipn n (repeat x k) = repeat x (k - n).
Proof.
  revert n. induction k as [|k IH]; intros [|n]; cbn [repeat skipn Nat.sub];
    try reflexivity.
  apply IH.
Qed.

Lemma turn_in_bounds_write source st action rest :
  read_number_io (stream st) = (Some action, rest) ->
  turn_in_bounds source st = true ->
  output_offset st + (Z.shiftr action 2 + 1) <= len (target st).
Proof.
  intros Ha Hb. unfold turn_in_bounds in Hb. rewrite Ha in Hb.
  apply andb_prop in Hb. destruct Hb as [Hw _]. apply Z.leb_le. exact Hw.
Qed.

Lemma reaches_zero_from_cursor source st st' :
  reaches source st st' ->
  zero_from_cursor st ->
  (forall s, reaches source st s -> turn_in_bounds source s = true) ->
  zero_from_cursor st' /\ length (target st') = length (target st).
Proof.
  induction 1 as [st|st st1 st2 Hstep Hreach IH]; intros Hinv Hall.
  - split; [exact Hinv | reflexivity].
  - destruct Hinv as [[Ho0 Ho1] Htail].
    destruct (step_next_decodes source st st1 Hstep) as (action & rest & Ha).
    pose proof (action_length_pos _ _ _ Ha) as HL.
    assert (turn_in_bounds source st = true) as Hb
      by (apply Hall; constructor).
    pose proof (turn_in_bounds_write source st action rest Ha Hb) as Hw.
    pose proof (step_output_offset source st st1 action rest Ha Hstep) as Ho'.
    destruct (step_in_bounds_frame source st st1 action rest Ha Ho0 Hb Hstep)
      as (Hlen & _ & Hskip & _).
    assert (zero_from_cursor st1) as Hinv1.
    { unfold zero_from_cursor. rewrite Ho'. unfold len in *. rewrite Hlen.
      split; [lia|].
      replace (Z.to_nat (output_offset st + (Z.shiftr action 2 + 1)))
        with (Z.to_nat (output_offset st)
              + Z.to_nat (Z.shiftr action 2 + 1))%nat by lia.
      rewrite Hskip.
      rewrite Nat.add_comm, <- skipn_skipn, Htail, skipn_repeat.
      f_equal. lia. }
    destruct IH as [Hinv2 Hlen2]; [exact Hinv1 | |].
    + intros s Hs. apply Hall. econstructor; eassumption.
    + split; [exact Hinv2 | congruence].
Qed.

(** X19: in a run whose turns all stay inside their buffers, the write
    cursor never passes the target size and the buffer is zero from the
    cursor on; so when the actions stop short of the target size, the
    target that [patch_rom] returns has the target size and ends in zero
    bytes from where the writing stopped, and no error is raised for the
    missing output. *)
Theorem in_bounds_run_pads_with_zeros
  (self : BPSPatch) (source t : bytes) (n : Z) :
  target_size self = Some n ->
  0 <= n ->
  (forall s, reaches source (initial_state self n) s ->
             turn_in_bounds source s = true) ->
  patch_rom self source = Ok t ->
  exists st,
    run_loop source (initial_state self n) = Ok st
    /\ target st = t
    /\ 0 <= output_offset st <= n
    /\ len t = n
    /\ skipn (Z.to_nat (output_offset st)) t
       = repeat x00 (Z.to_nat (n - output_offset st)).
Proof.
  intros Ht Hn Hall Hrun. apply patch_rom_ok in Hrun.
  destruct Hrun as (_ & _ & n' & st & Ht' & Hr & <- & _).
  rewrite Ht in Ht'. injection Ht' as <-.
  exists st. split; [exact Hr|]. split; [reflexivity|].
  apply run_loop_ok in Hr. destruct Hr as [Hreach _].
  assert (zero_from_cursor (initial_state self n)) as Hinv0.
  { unfold zero_from_cursor. cbn [initial_state output_offset target].
    rewrite bytearray_len by lia. split; [lia|].
    cbn [Z.to_nat skipn]. rewrite Nat.sub_0_r. unfold Py.bytearray.
    rewrite repeat_length. reflexivity. }
  destruct (reaches_zero_from_cursor source _ st Hreach Hinv0 Hall)
    as [[Ho Htail] Hlen].
  assert (len (target st) = n) as Hlen'.
  { unfold len. rewrite Hlen. cbn [initial_state target].
    apply bytearray_len. exact Hn. }
  rewrite Hlen' in Ho. split; [exact Ho|]. split; [exact Hlen'|].
  rewrite Htail. f_equal. unfold len in Hlen'. lia.
Qed.

Lemma in_bounds_run_pads_with_zeros_witness :
  exists st,
    run_loop [x01; x02] (initial_state short_actions 4) = Ok st
    /\ target st = [x01; x02; x00; x00]
    /\ 0 <= output_offset st <= 4
    /\ len [x01; x02; x00; x00] = 4
    /\ skipn (Z.to_nat (output_offset st)) [x01; x02; x00; x00]
       = repeat x00 (Z.to_nat (4 - output_offset st)).
Proof.
  refine (in_bounds_run_pads_with_zeros short_actions [x01; x02]
            [x01; x02; x00; x00] 4 eq_refl _ _ _).
  - discriminate.
  - intros st Hreach.
    inversion Hreach as [|s0 s1 s2 Hstep Hrest]; subst; [reflexivity|].
    vm_compute in Hstep. injection Hstep as <-.
    inversion Hrest as [|s0 s1 s2 Hstep2 _]; subst; [reflexivity|].
    vm_compute in Hstep2. discriminate.
  - vm_compute. reflexivity.
Defined.

(* ------------------------------------------------------------------ *)
(** ** A TargetRead above [sys.maxsize] *)

(** The patch with the ten-byte TargetRead is accepted, and applying it
    ends with the [OverflowError] of [actions.read]. *)
Example huge_read_run :
  BPSPatch_init huge_read_patch = Ok huge_read
  /\ read_number_io (actions huge_read)
     = (Some 1180664245694079451265, [x41])
  /\ Z.land 1180664245694079451265 3 = Action_value TargetRead
  /\ Py.maxsize < Z.shiftr 1180664245694079451265 2 + 1
  /\ patch_rom huge_read [] = Raise OverflowError.
Proof.
  repeat split; vm_compute; reflexivity.
Qed.
